(** * Sniffer / relay firmware (code/firmware/esp_sniff_envoie.c)

    A shallow embedding of the IEEE 802.15.4 capture-and-relay firmware:
    the mode switch, the radio receive callback, the task that renders
    captured frames on the serial line and the task that reads commands
    and raw frames from the serial line.

    Bytes ([uint8_t]) are [Byte.byte]; text ([char]) is [ascii]; C integers
    are [Z] with the conversions written out.  The dynamically allocated
    packets live in a finite map from addresses to records, the FreeRTOS
    queue holds addresses. *)

From Stdlib Require Import ZArith Lia List Bool Ascii String.
From Stdlib Require Import Strings.Byte.
From stdpp Require Import base tactics option list gmap fin_maps fin_sets.

Open Scope Z_scope.

(** ** Configuration constants *)

Definition UART_BAUD_RATE : Z := 115200.
Definition BUF_SIZE : Z := 2048.
Definition MAX_FRAME_SIZE : Z := 127.
Definition CMD_PREFIX : string := "#CMD#".
Definition CMD_PREFIX_LEN : Z := 5.
Definition CHANNEL : Z := 13.
Definition QUEUE_SIZE : Z := 40.

Inductive operation_mode_t : Type :=
| MODE_SNIFF
| MODE_TX.

#[global] Instance operation_mode_eq_dec : EqDecision operation_mode_t.
Proof. solve_decision. Defined.

(** [rx_packet_t]: [data] is the array [uint8_t data[MAX_FRAME_SIZE + 1]],
    [len] a [uint8_t], [rssi] an [int8_t]. *)
Record rx_packet_t : Type := mk_packet {
  data : list byte;
  len : Z;
  rssi : Z
}.

(** ** C integer conversions *)

Definition to_uint8 (z : Z) : Z := z mod 256.
Definition to_int8 (z : Z) : Z := (z + 128) mod 256 - 128.
Definition to_uint32 (z : Z) : Z := z mod 2 ^ 32.

Definition byte_val (b : byte) : Z := Z.of_N (Byte.to_N b).

Definition byte_of_Z (z : Z) : byte :=
  match Byte.of_N (Z.to_N (z mod 256)) with
  | Some b => b
  | None => x00
  end.

(** ** printf conversions used by the firmware *)

Module Printf.

Definition digit_char (d : Z) : ascii :=
  if d <? 10 then ascii_of_N (48 + Z.to_N d) else ascii_of_N (55 + Z.to_N d).

(** Digits of a non-negative number, least significant first; stops
    with the last non-zero quotient. *)
Fixpoint digits_rev (base : Z) (fuel : nat) (n : Z) : list Z :=
  match fuel with
  | O => []
  | S f => n mod base :: (if n / base =? 0 then [] else digits_rev base f (n / base))
  end.

Definition enough_fuel (n : Z) : nat := S (Z.to_nat (Z.log2 n)).

Definition utoa (base : Z) (n : Z) : list ascii :=
  map digit_char (rev (digits_rev base (enough_fuel n) n)).

Definition pad_left (width : Z) (fill : ascii) (s : list ascii) : list ascii :=
  repeat fill (Z.to_nat (width - Z.of_nat (length s))) ++ s.

(** ["%6lu"] *)
Definition fmt_6lu (n : Z) : list ascii := pad_left 6 " "%char (utoa 10 n).

Definition itoa (n : Z) : list ascii :=
  if n <? 0 then "-"%char :: utoa 10 (- n) else utoa 10 n.

(** ["%4d"] and ["%3d"] *)
Definition fmt_4d (n : Z) : list ascii := pad_left 4 " "%char (itoa n).
Definition fmt_3d (n : Z) : list ascii := pad_left 3 " "%char (itoa n).

(** ["%02X"] *)
Definition fmt_02X (n : Z) : list ascii := pad_left 2 "0"%char (utoa 16 n).

Definition CR : ascii := "013"%char.
Definition LF : ascii := "010"%char.
Definition NUL : ascii := "000"%char.

(** The text of ["[%6lu|RSSI:%4ddB|%3dB] "]. *)
Definition fmt_header (seq rssi count : Z) : list ascii :=
  list_ascii_of_string "[" ++ fmt_6lu seq ++
  list_ascii_of_string "|RSSI:" ++ fmt_4d rssi ++
  list_ascii_of_string "dB|" ++ fmt_3d count ++
  list_ascii_of_string "B] ".

(** Value of a decimal digit string (used to read a field back). *)
Definition digit_val (c : ascii) : option Z :=
  let n := Z.of_N (N_of_ascii c) in
  if (48 <=? n) && (n <=? 57) then Some (n - 48) else None.

Fixpoint parse_dec_aux (acc : Z) (s : list ascii) : option Z :=
  match s with
  | [] => Some acc
  | c :: s' =>
      match digit_val c with
      | Some d => parse_dec_aux (10 * acc + d) s'
      | None => None
      end
  end.

Fixpoint skip_spaces (s : list ascii) : list ascii :=
  match s with
  | c :: s' => if Ascii.eqb c " "%char then skip_spaces s' else s
  | [] => []
  end.

Definition parse_field (s : list ascii) : option Z :=
  match skip_spaces s with
  | [] => None
  | s' => parse_dec_aux 0 s'
  end.

End Printf.

Import Printf.

(** ** Memory and C strings *)

(** [memcpy(dst, src, n)] into an array declared with [capacity] elements:
    the first [n] bytes of [dst] are replaced.  Copying more than the array
    holds, or more than the source holds, is an access outside the object. *)
Definition memcpy (capacity : Z) (dst src : list byte) (n : Z) : option (list byte) :=
  if (n <=? capacity) && (n <=? Z.of_nat (length src))
  then Some (take (Z.to_nat n) src ++ drop (Z.to_nat n) dst)
  else None.

(** The C string stored at the start of a [char] array: the characters
    before the first NUL. *)
Fixpoint c_str (mem : list ascii) : list ascii :=
  match mem with
  | [] => []
  | c :: mem' => if Ascii.eqb c NUL then [] else c :: c_str mem'
  end.

Fixpoint starts_with (needle s : list ascii) : bool :=
  match needle, s with
  | [], _ => true
  | n :: needle', c :: s' => Ascii.eqb n c && starts_with needle' s'
  | _ :: _, [] => false
  end.

(** [strncmp(a, b, n) == 0] on NUL-terminated arrays. *)
Definition strncmp_eq (a b : list ascii) (n : Z) : bool :=
  bool_decide (take (Z.to_nat n) (c_str a) = take (Z.to_nat n) (c_str b)).

(** [strstr(haystack, needle) != NULL] on C strings. *)
Fixpoint strstr (haystack needle : list ascii) : bool :=
  starts_with needle haystack ||
  match haystack with
  | [] => false
  | _ :: haystack' => strstr haystack' needle
  end.

(** ** The radio driver and the log, as traces *)

Inductive radio_call : Type :=
| esp_ieee802154_enable
| esp_ieee802154_set_channel (channel : Z)
| esp_ieee802154_set_promiscuous (enable : bool)
| esp_ieee802154_set_panid (panid : Z)
| esp_ieee802154_set_short_address (addr : Z)
| esp_ieee802154_set_rx_when_idle (enable : bool)
| esp_ieee802154_receive
| esp_ieee802154_receive_handle_done (frame : list byte)
| esp_ieee802154_transmit (frame : list byte) (cca : bool).

Inductive log_event : Type :=
| log_mode_sniff (channel : Z)
| log_mode_tx
| log_command (cmd : list ascii)
| log_status (mode_name : string) (queue_items queue_size dropped : Z)
| log_initialised (baud channel queue_size : Z).

(** A task made with [xTaskCreate(entry, name, stack, NULL, priority, NULL)]. *)
Inductive task_entry : Type :=
| entry_uart_receive_task
| entry_uart_send_task.

Record task_t : Type := mk_task {
  task_code : task_entry;
  task_name : string;
  task_stack : Z;
  task_priority : Z
}.

(** ** Firmware state

    [rx_queue] is the FreeRTOS queue of [rx_packet_t *], created with
    [QUEUE_SIZE] slots; [heap] holds the live [malloc] blocks;
    [output_buffer] is the static buffer of [uart_send_task]; [uart_tx]
    collects the arguments of each [uart_write_bytes]; [relay_packet] is
    the local [packet] of [uart_send_task] while it holds a record ([None]
    while it waits in [xQueueReceive]); [tasks] lists the FreeRTOS tasks
    created so far. *)
Record firmware : Type := mk_firmware {
  current_mode : operation_mode_t;
  dropped_packets : Z;
  rx_queue : list nat;
  heap : gmap nat rx_packet_t;
  radio_log : list radio_call;
  esp_log : list log_event;
  output_buffer : list ascii;
  uart_tx : list (list ascii);
  relay_packet : option nat;
  tasks : list task_t
}.

Definition set_current_mode (m : operation_mode_t) (s : firmware) : firmware :=
  mk_firmware m (dropped_packets s) (rx_queue s) (heap s) (radio_log s)
    (esp_log s) (output_buffer s) (uart_tx s) (relay_packet s) (tasks s).
Definition set_dropped_packets (d : Z) (s : firmware) : firmware :=
  mk_firmware (current_mode s) d (rx_queue s) (heap s) (radio_log s)
    (esp_log s) (output_buffer s) (uart_tx s) (relay_packet s) (tasks s).
Definition set_rx_queue (q : list nat) (s : firmware) : firmware :=
  mk_firmware (current_mode s) (dropped_packets s) q (heap s) (radio_log s)
    (esp_log s) (output_buffer s) (uart_tx s) (relay_packet s) (tasks s).
Definition set_heap (h : gmap nat rx_packet_t) (s : firmware) : firmware :=
  mk_firmware (current_mode s) (dropped_packets s) (rx_queue s) h (radio_log s)
    (esp_log s) (output_buffer s) (uart_tx s) (relay_packet s) (tasks s).
Definition set_radio_log (r : list radio_call) (s : firmware) : firmware :=
  mk_firmware (current_mode s) (dropped_packets s) (rx_queue s) (heap s) r
    (esp_log s) (output_buffer s) (uart_tx s) (relay_packet s) (tasks s).
Definition set_esp_log (l : list log_event) (s : firmware) : firmware :=
  mk_firmware (current_mode s) (dropped_packets s) (rx_queue s) (heap s)
    (radio_log s) l (output_buffer s) (uart_tx s) (relay_packet s) (tasks s).
Definition set_output_buffer (b : list ascii) (s : firmware) : firmware :=
  mk_firmware (current_mode s) (dropped_packets s) (rx_queue s) (heap s)
    (radio_log s) (esp_log s) b (uart_tx s) (relay_packet s) (tasks s).
Definition set_uart_tx (u : list (list ascii)) (s : firmware) : firmware :=
  mk_firmware (current_mode s) (dropped_packets s) (rx_queue s) (heap s)
    (radio_log s) (esp_log s) (output_buffer s) u (relay_packet s) (tasks s).
Definition set_relay_packet (p : option nat) (s : firmware) : firmware :=
  mk_firmware (current_mode s) (dropped_packets s) (rx_queue s) (heap s)
    (radio_log s) (esp_log s) (output_buffer s) (uart_tx s) p (tasks s).
Definition set_tasks (t : list task_t) (s : firmware) : firmware :=
  mk_firmware (current_mode s) (dropped_packets s) (rx_queue s) (heap s)
    (radio_log s) (esp_log s) (output_buffer s) (uart_tx s) (relay_packet s) t.

Definition OUTPUT_BUFFER_SIZE : Z := MAX_FRAME_SIZE * 3 + 50.

(** Static initialisers of the translation unit. *)
Definition boot_state : firmware :=
  {| current_mode := MODE_TX;
     dropped_packets := 0;
     rx_queue := [];
     heap := ∅;
     radio_log := [];
     esp_log := [];
     output_buffer := replicate (Z.to_nat OUTPUT_BUFFER_SIZE) NUL;
     uart_tx := [];
     relay_packet := None;
     tasks := [] |}.

(** ** Outcomes of running a piece of the firmware

    [Done]: control returns; [Aborted]: an [ESP_ERROR_CHECK] failed and the
    process stops; [Fault]: an access outside an object (the C program has
    no defined behaviour from there on). *)
Inductive outcome (A : Type) : Type :=
| Done (a : A) (s : firmware)
| Aborted (s : firmware)
| Fault.
Arguments Done {A} a s.
Arguments Aborted {A} s.
Arguments Fault {A}.

Definition M (A : Type) : Type := firmware -> outcome A.

Definition ret {A} (a : A) : M A := fun s => Done a s.
Definition bind {A B} (c : M A) (k : A -> M B) : M B :=
  fun s => match c s with
           | Done a s' => k a s'
           | Aborted s' => Aborted s'
           | Fault => Fault
           end.
Definition fault {A} : M A := fun _ => Fault.
Definition gets {A} (f : firmware -> A) : M A := fun s => Done (f s) s.
Definition modify (f : firmware -> firmware) : M unit := fun s => Done tt (f s).
Definition lift_option {A} (o : option A) : M A :=
  match o with Some a => ret a | None => fault end.

Declare Scope fw_scope.
Delimit Scope fw_scope with fw.
Notation "'let*' x ':=' c 'in' k" := (bind c (fun x => k))
  (at level 10, x pattern, c at level 100, k at level 200) : fw_scope.
Notation "c1 ';;;' c2" := (bind c1 (fun _ => c2))
  (at level 100, c2 at level 200, right associativity) : fw_scope.
Open Scope fw_scope.

(** ** FreeRTOS queue and allocator *)

(** [xQueueSendFromISR(rx_queue, &packet, ...)]: never waits; fails when
    all [QUEUE_SIZE] slots are taken. *)
Definition xQueueSendFromISR (p : nat) : M bool :=
  fun s =>
    if Z.of_nat (length (rx_queue s)) <? QUEUE_SIZE
    then Done true (set_rx_queue (rx_queue s ++ [p]) s)
    else Done false s.

Definition uxQueueMessagesWaiting : M Z :=
  gets (fun s => Z.of_nat (length (rx_queue s))).

(** [malloc(sizeof(rx_packet_t))]: [NULL] when the allocator has nothing
    left, else the address of a block that is not live; [block] is what the
    block happens to contain. *)
Definition malloc (block : option rx_packet_t) : M (option nat) :=
  fun s =>
    match block with
    | None => Done None s
    | Some stale =>
        let p := fresh (dom (heap s)) in
        Done (Some p) (set_heap (<[p := stale]> (heap s)) s)
    end.

Definition free (p : nat) : M unit :=
  fun s =>
    match heap s !! p with
    | Some _ => Done tt (set_heap (delete p (heap s)) s)
    | None => Fault
    end.

Definition load (p : nat) : M rx_packet_t :=
  fun s => match heap s !! p with Some pkt => Done pkt s | None => Fault end.

Definition store (p : nat) (pkt : rx_packet_t) : M unit :=
  fun s =>
    match heap s !! p with
    | Some _ => Done tt (set_heap (<[p := pkt]> (heap s)) s)
    | None => Fault
    end.

(** ** Radio calls *)

(** A call whose status is not looked at. *)
Definition radio (c : radio_call) : M unit :=
  modify (fun s => set_radio_log (radio_log s ++ [c]) s).

Definition ESP_LOGI (e : log_event) : M unit :=
  modify (fun s => set_esp_log (esp_log s ++ [e]) s).

(** [xTaskCreate]: the value returned is not looked at. *)
Definition xTaskCreate (t : task_t) : M unit :=
  modify (fun s => set_tasks (tasks s ++ [t]) s).

Section Firmware.

(** Status of a driver call, given the calls made before it:
    [true] for [ESP_OK]. *)
Variable esp_ok : list radio_call -> radio_call -> bool.

(** [ESP_ERROR_CHECK(call)]: aborts unless the call returns [ESP_OK]. *)
Definition ESP_ERROR_CHECK (c : radio_call) : M unit :=
  fun s =>
    let s' := set_radio_log (radio_log s ++ [c]) s in
    if esp_ok (radio_log s) c then Done tt s' else Aborted s'.

Definition switch_mode (new_mode : operation_mode_t) : M unit :=
  let* mode := gets current_mode in
  if decide (mode = new_mode) then ret tt
  else
    modify (set_current_mode new_mode);;;
    match new_mode with
    | MODE_SNIFF =>
        ESP_ERROR_CHECK (esp_ieee802154_set_promiscuous true);;;
        ESP_ERROR_CHECK (esp_ieee802154_set_panid 0xFFFF);;;
        ESP_ERROR_CHECK (esp_ieee802154_set_short_address 0xFFFF);;;
        ESP_ERROR_CHECK (esp_ieee802154_set_rx_when_idle true);;;
        ESP_ERROR_CHECK esp_ieee802154_receive;;;
        ESP_LOGI (log_mode_sniff CHANNEL)
    | MODE_TX =>
        ESP_ERROR_CHECK (esp_ieee802154_set_promiscuous false);;;
        ESP_ERROR_CHECK (esp_ieee802154_set_rx_when_idle false);;;
        ESP_LOGI log_mode_tx
    end.

End Firmware.

(** ** The receive callback

    [frame] is the driver's receive buffer, [frame_rssi] the [rssi] field of
    [frame_info], [block] the behaviour of [malloc] at this call.  The
    closing [portYIELD_FROM_ISR()] only asks the scheduler for a context
    switch and leaves the state modelled here as it is. *)
Definition esp_ieee802154_receive_done
    (frame : list byte) (frame_rssi : Z) (block : option rx_packet_t) : M unit :=
  let* mode := gets current_mode in
  if decide (mode ≠ MODE_SNIFF) then ret tt
  else
    let* packet := malloc block in
    match packet with
    | None =>
        modify (fun s => set_dropped_packets (to_uint32 (dropped_packets s + 1)) s);;;
        radio esp_ieee802154_receive
    | Some p =>
        let* stale := load p in
        let* frame0 := lift_option (frame !! 0%nat) in
        let packet_len := to_uint8 (byte_val frame0 + 1) in
        let packet_rssi := to_int8 frame_rssi in
        let* packet_data :=
          lift_option (memcpy (MAX_FRAME_SIZE + 1) (data stale) frame packet_len) in
        store p (mk_packet packet_data packet_len packet_rssi);;;
        let* sent := xQueueSendFromISR p in
        (if sent then ret tt
         else
           free p;;;
           modify (fun s => set_dropped_packets (to_uint32 (dropped_packets s + 1)) s));;;
        radio (esp_ieee802154_receive_handle_done frame);;;
        radio esp_ieee802154_receive
    end.

(** ** The relay task ([uart_send_task]) *)

(** [snprintf(output_buffer + pos, sizeof(output_buffer) - pos, ...)] where
    [text] is the complete formatted text.  At most [size - pos - 1]
    characters and a NUL are stored; the value returned is the length of
    the complete text, stored or not.  With [pos] beyond the array the
    size argument wraps around and the call writes outside [output_buffer]. *)
Definition snprintf_at (buf : list ascii) (pos : Z) (text : list ascii)
  : option (list ascii * Z) :=
  if (pos <? 0) || (OUTPUT_BUFFER_SIZE <? pos) then None
  else
    let room := OUTPUT_BUFFER_SIZE - pos in
    let stored :=
      if room =? 0 then [] else take (Z.to_nat (room - 1)) text ++ [NUL] in
    Some (take (Z.to_nat pos) buf ++ stored
            ++ drop (Z.to_nat pos + length stored) buf,
          pos + Z.of_nat (length text)).

(** The loop [for (i = 1; i < packet->len; i++)] over its index values. *)
Fixpoint hex_loop (packet : rx_packet_t) (indices : list Z)
    (buf : list ascii) (pos : Z) : option (list ascii * Z) :=
  match indices with
  | [] => Some (buf, pos)
  | i :: rest =>
      match data packet !! Z.to_nat i with
      | None => None
      | Some b =>
          match snprintf_at buf pos (fmt_02X (byte_val b)) with
          | None => None
          | Some (buf', pos') => hex_loop packet rest buf' pos'
          end
      end
  end.

(** One frame rendered into [output_buffer]: the new buffer and the [pos]
    bytes handed to [uart_write_bytes].  [tick] is [xTaskGetTickCount()]. *)
Definition render (buf : list ascii) (tick : Z) (packet : rx_packet_t)
  : option (list ascii * list ascii) :=
  match snprintf_at buf 0
          (fmt_header (to_uint32 tick mod 1000000) (rssi packet) (len packet - 1)) with
  | None => None
  | Some (buf1, pos1) =>
      match hex_loop packet (seqZ 1 (len packet - 1)) buf1 pos1 with
      | None => None
      | Some (buf2, pos2) =>
          match snprintf_at buf2 pos2 [CR; LF] with
          | None => None
          | Some (buf3, pos3) =>
              if pos3 <=? OUTPUT_BUFFER_SIZE
              then Some (buf3, take (Z.to_nat pos3) buf3)
              else None
          end
      end
  end.

(** [xQueueReceive(rx_queue, &packet, portMAX_DELAY)]: the oldest address
    of the queue becomes [packet].  With an empty queue the task stays
    blocked and nothing changes. *)
Definition xQueueReceive : M unit :=
  fun s =>
    match relay_packet s, rx_queue s with
    | None, p :: queue' => Done tt (set_relay_packet (Some p) (set_rx_queue queue' s))
    | _, _ => Done tt s
    end.

(** The body of [if (xQueueReceive(...))]: format, write, free. *)
Definition uart_send_packet (tick : Z) : M unit :=
  let* held := gets relay_packet in
  match held with
  | None => ret tt
  | Some p =>
      let* packet := load p in
      let* buf := gets output_buffer in
      let* (buf', line) := lift_option (render buf tick packet) in
      modify (set_output_buffer buf');;;
      modify (fun s => set_uart_tx (uart_tx s ++ [line]) s);;;
      free p;;;
      modify (set_relay_packet None)
  end.

(** One turn of the [while (1)] loop. *)
Definition uart_send_task (tick : Z) : M unit :=
  xQueueReceive;;; uart_send_packet tick.

(** ** The command task ([uart_receive_task]) and [app_main] *)

(** [uart_read_bytes(port, buf, n, timeout)]: at most [n] of the bytes the
    driver holds. *)
Definition uart_read_bytes (pending : list byte) (n : Z) : list byte :=
  take (Z.to_nat n) pending.

Definition text_of (bytes : list byte) : list ascii := map ascii_of_byte bytes.

Definition KW_MODE_SNIFF : list ascii := list_ascii_of_string "MODE_SNIFF".
Definition KW_MODE_TX : list ascii := list_ascii_of_string "MODE_TX".
Definition KW_STATUS : list ascii := list_ascii_of_string "STATUS".

Section Tasks.

Variable esp_ok : list radio_call -> radio_call -> bool.

(** One turn of the [while (1)] loop.  [pending] is what the serial
    driver holds when [uart_read_bytes] returns, [tx_frame0] what the
    local array [tx_frame] contains before the copy.  Only the first
    [len + 1] bytes of [uart_data_buffer] are read in a turn, so the
    buffer is the chunk followed by the terminator written at [len]. *)
Definition uart_receive_task (pending tx_frame0 : list byte) : M unit :=
  let chunk := uart_read_bytes pending (BUF_SIZE - 1) in
  let len := Z.of_nat (length chunk) in
  if 0 <? len then
    let uart_data_buffer := chunk ++ [x00] in
    if strncmp_eq (text_of uart_data_buffer)
                  (list_ascii_of_string CMD_PREFIX ++ [NUL]) CMD_PREFIX_LEN
    then
      let cmd := c_str (drop (Z.to_nat CMD_PREFIX_LEN) (text_of uart_data_buffer)) in
      ESP_LOGI (log_command cmd);;;
      if strstr cmd KW_MODE_SNIFF then switch_mode esp_ok MODE_SNIFF
      else if strstr cmd KW_MODE_TX then switch_mode esp_ok MODE_TX
      else if strstr cmd KW_STATUS then
        let* queue_items := uxQueueMessagesWaiting in
        let* mode := gets current_mode in
        let* dropped := gets dropped_packets in
        ESP_LOGI (log_status (if decide (mode = MODE_SNIFF) then "SNIFF" else "TX")
                             queue_items QUEUE_SIZE dropped)
      else ret tt
    else
      let* mode := gets current_mode in
      if decide (mode = MODE_TX) then
        let* tx_frame :=
          lift_option (memcpy (MAX_FRAME_SIZE + 1) tx_frame0 uart_data_buffer len) in
        radio (esp_ieee802154_transmit tx_frame false)
      else ret tt
  else ret tt.

(** [app_main], from the radio bring-up on (the flash and serial-driver
    set-up before it does not touch the state modelled here). *)
Definition app_main : M unit :=
  ESP_ERROR_CHECK esp_ok esp_ieee802154_enable;;;
  ESP_ERROR_CHECK esp_ok (esp_ieee802154_set_channel CHANNEL);;;
  modify (set_rx_queue []);;;
  switch_mode esp_ok MODE_SNIFF;;;
  xTaskCreate (mk_task entry_uart_receive_task "uart_rx" 3072 3);;;
  xTaskCreate (mk_task entry_uart_send_task "uart_tx" 4096 2);;;
  ESP_LOGI (log_initialised UART_BAUD_RATE CHANNEL QUEUE_SIZE).

End Tasks.

(** ** Runs of the interrupt handler and the relay task

    The interrupt may arrive between the two halves of a turn of the relay
    task, while the task holds a record that is no longer queued. *)

Inductive event : Type :=
| ev_frame (frame : list byte) (frame_rssi : Z) (block : option rx_packet_t)
| ev_relay_receive
| ev_relay_send (tick : Z).

Definition step (e : event) : M unit :=
  match e with
  | ev_frame frame frame_rssi block => esp_ieee802154_receive_done frame frame_rssi block
  | ev_relay_receive => xQueueReceive
  | ev_relay_send tick => uart_send_packet tick
  end.

Fixpoint run (evs : list event) : M unit :=
  match evs with
  | [] => ret tt
  | e :: evs' => step e;;; run evs'
  end.

(** ** Vocabulary of the statements *)

(** The radio calls made between two states. *)
Definition issued (s s' : firmware) : list radio_call :=
  drop (length (radio_log s)) (radio_log s').

Definition is_handle_done (c : radio_call) : bool :=
  match c with esp_ieee802154_receive_handle_done _ => true | _ => false end.
Definition is_receive (c : radio_call) : bool :=
  match c with esp_ieee802154_receive => true | _ => false end.

Definition count_calls (f : radio_call -> bool) (l : list radio_call) : nat :=
  length (filter (fun c => f c = true) l).

(** The reconfiguration sequence of a mode, as the specification lists it:
    for capture, promiscuous on, accept-all PAN and short address,
    rx-when-idle on, start reception; for transmit, promiscuous off,
    rx-when-idle off. *)
Definition reconfiguration (m : operation_mode_t) : list radio_call :=
  match m with
  | MODE_SNIFF =>
      [esp_ieee802154_set_promiscuous true;
       esp_ieee802154_set_panid 0xFFFF;
       esp_ieee802154_set_short_address 0xFFFF;
       esp_ieee802154_set_rx_when_idle true;
       esp_ieee802154_receive]
  | MODE_TX =>
      [esp_ieee802154_set_promiscuous false;
       esp_ieee802154_set_rx_when_idle false]
  end.

(** Every call of [calls], made in this order after [history], returns
    [ESP_OK]. *)
Fixpoint accepts (esp_ok : list radio_call -> radio_call -> bool)
    (history calls : list radio_call) : bool :=
  match calls with
  | [] => true
  | c :: calls' => esp_ok history c && accepts esp_ok (history ++ [c]) calls'
  end.

Definition mode_log (m : operation_mode_t) : log_event :=
  match m with
  | MODE_SNIFF => log_mode_sniff CHANNEL
  | MODE_TX => log_mode_tx
  end.

(** A record within the bounds of [rx_packet_t]. *)
Definition wf_packet (p : rx_packet_t) : Prop :=
  length (data p) = Z.to_nat (MAX_FRAME_SIZE + 1) /\
  0 <= len p <= MAX_FRAME_SIZE + 1 /\
  -128 <= rssi p <= 127.

(** The payload bytes [data[1] .. data[len - 1]]. *)
Definition payload (p : rx_packet_t) : list byte :=
  take (Z.to_nat (len p - 1)) (drop 1 (data p)).

Definition hex_of (bytes : list byte) : list ascii :=
  concat (map (fun b => fmt_02X (byte_val b)) bytes).

(** The relay line of the specification. *)
Definition relay_line (seq : Z) (p : rx_packet_t) : list ascii :=
  fmt_header seq (rssi p) (len p - 1) ++ hex_of (payload p) ++ [CR; LF].

(** The record of the specification's round-trip example. *)
Definition test_packet : rx_packet_t :=
  mk_packet ([x04; xaa; xbb; xcc; xdd] ++ replicate 123 x00) 5 (-42).

(** [buf] is an [output_buffer] whose first [pos] characters are
    [written]. *)
Definition holds (buf : list ascii) (pos : Z) (written : list ascii) : Prop :=
  Z.of_nat (length buf) = OUTPUT_BUFFER_SIZE /\
  pos = Z.of_nat (length written) /\
  take (length written) buf = written.

(** The line of the specification's round-trip example. *)
Definition example_line : string :=
  ("[ 12345|RSSI: -42dB|  4B] AABBCCDD" ++ String CR (String LF EmptyString))%string.

(** A record of the maximum size: the length byte 127 and 127 payload
    bytes. *)
Definition full_packet : rx_packet_t :=
  mk_packet (x7f :: replicate 127 xa5) 128 (-90).

(** Unfolds the primitives of [M]. *)
Ltac run_monad :=
  unfold lift_option, radio, ESP_LOGI, xTaskCreate, uxQueueMessagesWaiting,
    ESP_ERROR_CHECK, malloc, free, load, store, xQueueSendFromISR,
    xQueueReceive in *;
  unfold bind, ret, gets, modify, fault in *.

(** The state after a completed switch to [new_mode]. *)
Definition mode_switched (new_mode : operation_mode_t) (s : firmware) : firmware :=
  {| current_mode := new_mode;
     dropped_packets := dropped_packets s;
     rx_queue := rx_queue s;
     heap := heap s;
     radio_log := radio_log s ++ reconfiguration new_mode;
     esp_log := esp_log s ++ [mode_log new_mode];
     output_buffer := output_buffer s;
     uart_tx := uart_tx s;
     relay_packet := relay_packet s;
     tasks := tasks s |}.

(** A driver that accepts every call. *)
Definition all_ok : list radio_call -> radio_call -> bool := fun _ _ => true.

(** The two tasks of [app_main], in the order of their creation. *)
Definition startup_tasks : list task_t :=
  [mk_task entry_uart_receive_task "uart_rx" 3072 3;
   mk_task entry_uart_send_task "uart_tx" 4096 2].

(** The driver calls of [app_main]. *)
Definition startup_calls : list radio_call :=
  [esp_ieee802154_enable; esp_ieee802154_set_channel CHANNEL]
    ++ reconfiguration MODE_SNIFF.

(** [packet->len = frame[0] + 1], stored in a [uint8_t]. *)
Definition packet_len_of (frame0 : byte) : Z := to_uint8 (byte_val frame0 + 1).

(** The record built from a frame in the block [stale]. *)
Definition captured (frame : list byte) (frame0 : byte) (frame_rssi : Z)
    (stale : rx_packet_t) : rx_packet_t :=
  {| data := take (Z.to_nat (packet_len_of frame0)) frame
               ++ drop (Z.to_nat (packet_len_of frame0)) (data stale);
     len := packet_len_of frame0;
     rssi := to_int8 frame_rssi |}.

(** The driver buffer holds a whole frame within the PHY limit. *)
Definition frame_fits (frame : list byte) : Prop :=
  exists frame0,
    frame !! 0%nat = Some frame0 /\
    byte_val frame0 <= MAX_FRAME_SIZE /\
    byte_val frame0 + 1 <= Z.of_nat (length frame).

(** [dropped_packets++] *)
Definition dropped_one (s : firmware) : firmware :=
  set_dropped_packets (to_uint32 (dropped_packets s + 1)) s.

(** The two closing calls of the callback. *)
Definition rearmed (frame : list byte) (s : firmware) : firmware :=
  set_radio_log
    (radio_log s ++ [esp_ieee802154_receive_handle_done frame; esp_ieee802154_receive]) s.

(** The records that have an owner: the one the relay task holds, then the
    queued ones. *)
Definition owned (s : firmware) : list nat :=
  option_list (relay_packet s) ++ rx_queue s.

(** What holds between any two steps: the queue is within its capacity;
    each record has one owner (the queue, once, or the relay task); the
    live blocks are exactly the owned ones (an owned record is never a
    freed one, and no block is left without an owner); every live record
    is within the bounds of its type. *)
Definition fw_inv (s : firmware) : Prop :=
  Z.of_nat (length (rx_queue s)) <= QUEUE_SIZE /\
  NoDup (owned s) /\
  dom (heap s) = list_to_set (owned s) /\
  map_Forall (fun _ p => wf_packet p) (heap s) /\
  Z.of_nat (length (output_buffer s)) = OUTPUT_BUFFER_SIZE.

(** A block returned by [malloc] has room for the 128 bytes of [data]. *)
Definition wf_block (block : option rx_packet_t) : Prop :=
  match block with
  | Some stale => length (data stale) = Z.to_nat (MAX_FRAME_SIZE + 1)
  | None => True
  end.

Definition wf_event (e : event) : Prop :=
  match e with
  | ev_frame frame _ block => frame_fits frame /\ wf_block block
  | ev_relay_receive | ev_relay_send _ => True
  end.

(** ** Concrete inputs *)

Definition sniff_state : firmware := set_current_mode MODE_SNIFF boot_state.

Definition zero_block : rx_packet_t :=
  mk_packet (replicate 128 x00) 0 0.

Definition short_frame : list byte := [x03; x61; x88; x01].

(** A driver buffer whose first byte is 200. *)
Definition long_frame : list byte := xc8 :: replicate 255 x00.

(** What one invocation of the callback does to the drop counter, the
    queue and the heap, from [s1] to [s2]; [p] is the address [malloc]
    returns when it succeeds.  The counter is a [uint32_t]: adding one wraps
    at 2^32. *)
Definition capture_outcome (block : option rx_packet_t) (s1 s2 : firmware) : Prop :=
  let p := fresh (dom (heap s1)) in
  Z.of_nat (length (rx_queue s2)) <= QUEUE_SIZE /\
  (current_mode s1 <> MODE_SNIFF -> s2 = s1) /\
  (current_mode s1 = MODE_SNIFF -> block = None ->
     dropped_packets s2 = to_uint32 (dropped_packets s1 + 1) /\
     rx_queue s2 = rx_queue s1 /\ heap s2 = heap s1) /\
  (current_mode s1 = MODE_SNIFF -> is_Some block ->
   QUEUE_SIZE <= Z.of_nat (length (rx_queue s1)) ->
     dropped_packets s2 = to_uint32 (dropped_packets s1 + 1) /\
     rx_queue s2 = rx_queue s1 /\ heap s2 = heap s1 /\
     (p ∉ dom (heap s2)) /\ (p ∉ rx_queue s2)) /\
  (current_mode s1 = MODE_SNIFF -> is_Some block ->
   Z.of_nat (length (rx_queue s1)) < QUEUE_SIZE ->
     dropped_packets s2 = dropped_packets s1 /\
     rx_queue s2 = rx_queue s1 ++ [p] /\
     (p ∈ dom (heap s2)) /\ (p ∉ rx_queue s1)).

(** [needle] occurs in [s] as a contiguous run of equal characters. *)
Definition contains (needle s : list ascii) : Prop :=
  exists before after, s = before ++ needle ++ after.

Inductive command : Type :=
| SetMode (m : operation_mode_t)
| ReportStatus
| Unrecognized.

(** The precedence of the specification: capture keyword, then transmit
    keyword, then status keyword. *)
Definition classify (cmd : list ascii) : command :=
  if strstr cmd KW_MODE_SNIFF then SetMode MODE_SNIFF
  else if strstr cmd KW_MODE_TX then SetMode MODE_TX
  else if strstr cmd KW_STATUS then ReportStatus
  else Unrecognized.

(** [current_mode == MODE_SNIFF ? "SNIFF" : "TX"] *)
Definition mode_name (m : operation_mode_t) : string :=
  if decide (m = MODE_SNIFF) then "SNIFF"%string else "TX"%string.

Definition logged (e : log_event) (s : firmware) : firmware :=
  set_esp_log (esp_log s ++ [e]) s.

Definition status_of (s : firmware) : log_event :=
  log_status (mode_name (current_mode s))
             (Z.of_nat (length (rx_queue s))) QUEUE_SIZE (dropped_packets s).

(** "#CMD#", a NUL byte, "MODE_TX". *)
Definition nul_chunk : list byte :=
  list_byte_of_string "#CMD#" ++ [x00] ++ list_byte_of_string "MODE_TX".

Definition tx_command_chunk : list byte := list_byte_of_string "#CMD#MODE_TX".

(** 200 bytes, none of them part of a command prefix. *)
Definition oversized_chunk : list byte := replicate 200 x41.

(** ** Non-volatile storage start-up ([initialize_nvs]) *)

(** The status codes [initialize_nvs] tells apart; [ESP_ERR_other] stands
    for every other code. *)
Inductive esp_err_t : Type :=
| ESP_OK
| ESP_ERR_NVS_NO_FREE_PAGES
| ESP_ERR_NVS_NEW_VERSION_FOUND
| ESP_ERR_other (code : Z).

#[global] Instance esp_err_eq_dec : EqDecision esp_err_t.
Proof. solve_decision. Defined.

Inductive nvs_call : Type :=
| nvs_flash_init
| nvs_flash_erase.

#[global] Instance nvs_call_eq_dec : EqDecision nvs_call.
Proof. solve_decision. Defined.

(** How [initialize_nvs] ends, with the flash calls it made. *)
Inductive nvs_outcome : Type :=
| nvs_returned (calls : list nvs_call)
| nvs_aborted (calls : list nvs_call).

(** [nvs calls c] is the status of the flash call [c] made after
    [calls]. *)
Definition initialize_nvs (nvs : list nvs_call -> nvs_call -> esp_err_t) : nvs_outcome :=
  let err := nvs [] nvs_flash_init in
  if bool_decide (err = ESP_ERR_NVS_NO_FREE_PAGES \/ err = ESP_ERR_NVS_NEW_VERSION_FOUND)
  then
    if bool_decide (nvs [nvs_flash_init] nvs_flash_erase = ESP_OK) then
      let err := nvs [nvs_flash_init; nvs_flash_erase] nvs_flash_init in
      if bool_decide (err = ESP_OK)
      then nvs_returned [nvs_flash_init; nvs_flash_erase; nvs_flash_init]
      else nvs_aborted [nvs_flash_init; nvs_flash_erase; nvs_flash_init]
    else nvs_aborted [nvs_flash_init; nvs_flash_erase]
  else
    if bool_decide (err = ESP_OK)
    then nvs_returned [nvs_flash_init]
    else nvs_aborted [nvs_flash_init].

Definition nvs_calls (o : nvs_outcome) : list nvs_call :=
  match o with nvs_returned calls | nvs_aborted calls => calls end.

(** ** Vocabulary of the further statements *)

Definition is_transmit (c : radio_call) : bool :=
  match c with esp_ieee802154_transmit _ _ => true | _ => false end.

(** The two driver calls of the receive callback. *)
Definition capture_call (c : radio_call) : bool := is_handle_done c || is_receive c.

(** The position of the first call of [calls], made in this order after
    [history], that does not return [ESP_OK]. *)
Fixpoint rejected_at (esp_ok : list radio_call -> radio_call -> bool)
    (history calls : list radio_call) : option nat :=
  match calls with
  | [] => None
  | c :: calls' =>
      if esp_ok history c
      then option_map S (rejected_at esp_ok (history ++ [c]) calls')
      else Some 0%nat
  end.

(** A frame within the PHY limit arriving when [malloc] succeeds. *)
Definition wf_capture (e : event) : Prop :=
  match e with
  | ev_frame frame _ (Some stale) =>
      frame_fits frame /\ length (data stale) = Z.to_nat (MAX_FRAME_SIZE + 1)
  | _ => False
  end.

(** The frames accounted for so far: counted as dropped, held by the queue
    or the relay task, or written to the serial port. *)
Definition accounted (s : firmware) : Z :=
  dropped_packets s + Z.of_nat (length (owned s)) + Z.of_nat (length (uart_tx s)).

Definition is_frame (e : event) : bool :=
  match e with ev_frame _ _ _ => true | _ => false end.

Definition frames_in (evs : list event) : Z :=
  Z.of_nat (length (filter (fun e => is_frame e = true) evs)).

(** *** Reading a relay line back *)

Definition hex_digit_val (c : ascii) : option Z :=
  let n := Z.of_N (N_of_ascii c) in
  if (48 <=? n) && (n <=? 57) then Some (n - 48)
  else if (65 <=? n) && (n <=? 70) then Some (n - 55)
  else None.

Fixpoint parse_hex (s : list ascii) : option (list byte) :=
  match s with
  | [] => Some []
  | [_] => None
  | hi :: lo :: s' =>
      match hex_digit_val hi, hex_digit_val lo, parse_hex s' with
      | Some h, Some l, Some bytes => Some (byte_of_Z (16 * h + l) :: bytes)
      | _, _, _ => None
      end
  end.

Definition parse_signed (s : list ascii) : option Z :=
  match skip_spaces s with
  | [] => None
  | c :: s' =>
      if Ascii.eqb c "-"%char
      then match s' with
           | [] => None
           | _ => option_map Z.opp (parse_dec_aux 0 s')
           end
      else parse_dec_aux 0 (c :: s')
  end.

Definition expect (literal s : list ascii) : option (list ascii) :=
  if starts_with literal s then Some (drop (length literal) s) else None.

(** A reader of the line format
    ["[NNNNNN|RSSI:SSSSdB|LLLB] HEX...\r\n"]: the sequence value, the signal
    strength and the payload bytes. *)
Definition decode_line (line : list ascii) : option (Z * Z * list byte) :=
  s ← expect (list_ascii_of_string "[") line;
  seq ← parse_field (take 6 s);
  s ← expect (list_ascii_of_string "|RSSI:") (drop 6 s);
  strength ← parse_signed (take 4 s);
  s ← expect (list_ascii_of_string "dB|") (drop 4 s);
  count ← parse_field (take 3 s);
  s ← expect (list_ascii_of_string "B] ") (drop 3 s);
  bytes ← parse_hex (take (length s - 2) s);
  if bool_decide (drop (length s - 2) s = [CR; LF] /\ count = Z.of_nat (length bytes))
  then Some (seq, strength, bytes)
  else None.

(** Value of a list of decimal digits, least significant first. *)
Fixpoint le_val (digits : list Z) : Z :=
  match digits with
  | [] => 0
  | d :: digits' => d + 10 * le_val digits'
  end.

(** *** Further concrete inputs *)

(** A flash that reports no free pages once, then works. *)
Definition nvs_full_once (calls : list nvs_call) (c : nvs_call) : esp_err_t :=
  match calls, c with
  | [], nvs_flash_init => ESP_ERR_NVS_NO_FREE_PAGES
  | _, _ => ESP_OK
  end.

(** A driver that rejects [esp_ieee802154_set_panid] and accepts the
    rest. *)
Definition rejects_panid (history : list radio_call) (c : radio_call) : bool :=
  match c with esp_ieee802154_set_panid _ => false | _ => true end.

(** Capture mode with the record of the round-trip example queued at
    address 0. *)
Definition queued_state : firmware :=
  set_rx_queue [0%nat] (set_heap {[0%nat := test_packet]} sniff_state).

Definition raw_chunk : list byte := [x03; x01; x02; x03].

Definition sniff_command_chunk : list byte := list_byte_of_string "#CMD#MODE_SNIFF".

(** ** Runs of the whole firmware

    The callback, the relay task and the command task, in any order. *)

Inductive sys_event : Type :=
| sys_capture (e : event)
| sys_serial (pending tx_frame0 : list byte).

Definition sys_step (esp_ok : list radio_call -> radio_call -> bool)
    (e : sys_event) : M unit :=
  match e with
  | sys_capture e => step e
  | sys_serial pending tx_frame0 => uart_receive_task esp_ok pending tx_frame0
  end.

Fixpoint sys_run (esp_ok : list radio_call -> radio_call -> bool)
    (evs : list sys_event) : M unit :=
  match evs with
  | [] => ret tt
  | e :: evs' => sys_step esp_ok e;;; sys_run esp_ok evs'
  end.

(** A turn of the command task that reads a mode command: the chunk begins
    with the prefix and the first keyword found is a mode keyword. *)
Definition is_mode_command (e : sys_event) : bool :=
  match e with
  | sys_capture _ => false
  | sys_serial pending _ =>
      let text := text_of (uart_read_bytes pending (BUF_SIZE - 1)) in
      starts_with (list_ascii_of_string CMD_PREFIX) text &&
      match classify (c_str (drop (Z.to_nat CMD_PREFIX_LEN) text)) with
      | SetMode _ => true
      | _ => false
      end
  end.

Definition status_chunk : list byte := list_byte_of_string "#CMD#STATUS".

(** * Properties *)

(** ** Widths of the printf conversions *)

Section PrintfFacts.

Lemma digits_rev_length (base : Z) (k fuel : nat) (n : Z) :
  1 < base -> 0 <= n < base ^ Z.of_nat (S k) ->
  (length (digits_rev base fuel n) <= S k)%nat.
Proof.
  intros Hb. revert fuel n.
  induction k as [|k IH]; intros fuel n Hn; destruct fuel as [|fuel]; simpl; try lia.
  - change (Z.of_nat 1) with 1 in Hn. rewrite Z.pow_1_r in Hn.
    rewrite Z.div_small by lia. simpl. lia.
  - destruct (n / base =? 0) eqn:Hq; simpl; [lia|].
    apply le_n_S, IH. split; [apply Z.div_pos; lia|].
    apply Z.div_lt_upper_bound; [lia|].
    rewrite <- Z.pow_succ_r by lia.
    replace (Z.succ (Z.of_nat (S k))) with (Z.of_nat (S (S k))) by lia. lia.
Qed.

Lemma utoa_length (base : Z) (k : nat) (n : Z) :
  1 < base -> 0 <= n < base ^ Z.of_nat (S k) ->
  (length (utoa base n) <= S k)%nat.
Proof.
  intros Hb Hn. unfold utoa.
  rewrite length_map, length_rev. by apply digits_rev_length.
Qed.

Lemma pad_left_length (w : Z) (c : ascii) (s : list ascii) :
  Z.of_nat (length s) <= w -> Z.of_nat (length (pad_left w c s)) = w.
Proof.
  intros Hs. unfold pad_left. rewrite length_app, repeat_length. lia.
Qed.

Lemma fmt_6lu_length (n : Z) :
  0 <= n < 1000000 -> length (fmt_6lu n) = 6%nat.
Proof.
  intros Hn. apply Nat2Z.inj. apply pad_left_length.
  pose proof (utoa_length 10 5 n ltac:(lia) ltac:(simpl; lia)). lia.
Qed.

Lemma itoa_length (k : nat) (n : Z) :
  - 10 ^ Z.of_nat k < n < 10 ^ Z.of_nat (S k) ->
  (0 < k)%nat ->
  (length (itoa n) <= S k)%nat.
Proof.
  intros Hn Hk. unfold itoa. destruct (n <? 0) eqn:Hneg.
  - destruct k as [|k]; [lia|]. simpl. apply le_n_S.
    apply utoa_length; lia.
  - apply utoa_length; lia.
Qed.

Lemma fmt_4d_length (n : Z) : -128 <= n <= 127 -> length (fmt_4d n) = 4%nat.
Proof.
  intros Hn. apply Nat2Z.inj. apply pad_left_length.
  pose proof (itoa_length 3 n ltac:(simpl; lia) ltac:(lia)). lia.
Qed.

Lemma fmt_3d_length (n : Z) : -1 <= n <= 255 -> length (fmt_3d n) = 3%nat.
Proof.
  intros Hn. apply Nat2Z.inj. apply pad_left_length.
  pose proof (itoa_length 2 n ltac:(simpl; lia) ltac:(lia)). lia.
Qed.

Lemma byte_val_range (b : byte) : 0 <= byte_val b < 256.
Proof.
  unfold byte_val. pose proof (Byte.to_N_bounded b). lia.
Qed.

Lemma fmt_02X_length (b : byte) : length (fmt_02X (byte_val b)) = 2%nat.
Proof.
  pose proof (byte_val_range b) as Hb.
  apply Nat2Z.inj. apply pad_left_length.
  pose proof (utoa_length 16 1 (byte_val b) ltac:(lia) ltac:(simpl; lia)). lia.
Qed.

Lemma fmt_header_length (seq r count : Z) :
  0 <= seq < 1000000 -> -128 <= r <= 127 -> -1 <= count <= 255 ->
  length (fmt_header seq r count) = 26%nat.
Proof.
  intros Hs Hr Hc. unfold fmt_header.
  rewrite !length_app, fmt_6lu_length, fmt_4d_length, fmt_3d_length by done.
  reflexivity.
Qed.

Lemma hex_of_length (bytes : list byte) :
  length (hex_of bytes) = (2 * length bytes)%nat.
Proof.
  unfold hex_of. induction bytes as [|b bytes IH]; simpl; [done|].
  rewrite length_app, fmt_02X_length, IH. lia.
Qed.

End PrintfFacts.

(** ** Rendering into [output_buffer] *)

Section Render.

(** A text that fits with its terminator is stored whole, right after
    what was written before. *)
Lemma snprintf_at_fits (buf : list ascii) (pos : Z) (written text : list ascii) :
  holds buf pos written ->
  pos + Z.of_nat (length text) < OUTPUT_BUFFER_SIZE ->
  exists buf',
    snprintf_at buf pos text = Some (buf', pos + Z.of_nat (length text)) /\
    holds buf' (pos + Z.of_nat (length text)) (written ++ text).
Proof.
  intros (Hlen & Hpos & Htake) Hfit. unfold snprintf_at.
  assert (Hsz : OUTPUT_BUFFER_SIZE = 431) by reflexivity.
  destruct ((pos <? 0) || (OUTPUT_BUFFER_SIZE <? pos)) eqn:Hb; [lia|].
  destruct (OUTPUT_BUFFER_SIZE - pos =? 0) eqn:Hroom; [lia|].
  eexists; split; [reflexivity|].
  rewrite (take_ge text) by lia.
  subst pos. rewrite Nat2Z.id, Htake.
  repeat split.
  - rewrite !length_app, length_drop, ?length_app. simpl. lia.
  - rewrite length_app. lia.
  - rewrite !app_assoc, <- (app_assoc (written ++ text)).
    rewrite take_app_length'; [done|]. by rewrite length_app.
Qed.

Lemma hex_loop_fits (packet : rx_packet_t) (indices : list Z) (bytes : list byte) :
  Forall2 (fun i b => data packet !! Z.to_nat i = Some b) indices bytes ->
  forall (buf : list ascii) (pos : Z) (written : list ascii),
    holds buf pos written ->
    pos + 2 * Z.of_nat (length bytes) < OUTPUT_BUFFER_SIZE ->
    exists buf',
      hex_loop packet indices buf pos
        = Some (buf', pos + 2 * Z.of_nat (length bytes)) /\
      holds buf' (pos + 2 * Z.of_nat (length bytes)) (written ++ hex_of bytes).
Proof.
  induction 1 as [|i b indices bytes Hi _ IH]; intros buf pos written Hh Hfit.
  - exists buf. simpl. rewrite Z.add_0_r, app_nil_r. done.
  - simpl in *. rewrite Hi.
    destruct (snprintf_at_fits buf pos written (fmt_02X (byte_val b)) Hh)
      as (buf1 & -> & Hh1); [rewrite fmt_02X_length; lia|].
    rewrite fmt_02X_length in *.
    destruct (IH buf1 _ _ Hh1 ltac:(lia)) as (buf2 & Hrun & Hh2).
    exists buf2. split.
    + rewrite Hrun. do 2 f_equal. lia.
    + unfold hex_of in *. simpl. rewrite app_assoc.
      replace (pos + 2 * Z.of_nat (S (length bytes)))
        with (pos + Z.of_nat 2 + 2 * Z.of_nat (length bytes)) by lia.
      done.
Qed.

(** The loop indices [1 .. len - 1] read exactly the payload. *)
Lemma loop_reads_payload (packet : rx_packet_t) :
  0 <= len packet <= Z.of_nat (length (data packet)) ->
  Forall2 (fun i b => data packet !! Z.to_nat i = Some b)
          (seqZ 1 (len packet - 1)) (payload packet).
Proof.
  intros Hlen. unfold payload.
  apply Forall2_same_length_lookup_2.
  - rewrite length_seqZ, length_take, length_drop. lia.
  - intros k i b Hk Hb.
    apply lookup_seqZ in Hk as [-> Hk].
    rewrite lookup_take_Some in Hb. destruct Hb as [Hb _].
    rewrite lookup_drop in Hb. rewrite <- Hb. f_equal. lia.
Qed.

Lemma payload_length (packet : rx_packet_t) :
  0 <= len packet <= Z.of_nat (length (data packet)) ->
  Z.of_nat (length (payload packet)) = Z.max 0 (len packet - 1).
Proof.
  intros Hlen. unfold payload. rewrite length_take, length_drop. lia.
Qed.

(** A record within the bounds of its type is rendered without
    truncation, whatever [output_buffer] held before: the bytes written
    to the serial port are the header, two characters per payload byte,
    CR and LF. *)
Lemma render_wf (buf : list ascii) (tick : Z) (packet : rx_packet_t) :
  Z.of_nat (length buf) = OUTPUT_BUFFER_SIZE ->
  wf_packet packet ->
  exists buf',
    render buf tick packet
      = Some (buf', relay_line (to_uint32 tick mod 1000000) packet) /\
    Z.of_nat (length buf') = OUTPUT_BUFFER_SIZE.
Proof.
  intros Hbuf (Hdata & Hlen & Hrssi).
  assert (Hsz : OUTPUT_BUFFER_SIZE = 431) by reflexivity.
  assert (Hcap : MAX_FRAME_SIZE + 1 = 128) by reflexivity.
  set (seq := to_uint32 tick mod 1000000).
  assert (Hseq : 0 <= seq < 1000000) by (apply Z.mod_pos_bound; lia).
  pose proof (fmt_header_length seq (rssi packet) (len packet - 1)
                Hseq Hrssi ltac:(lia)) as Hhead.
  assert (Hd : 0 <= len packet <= Z.of_nat (length (data packet))) by lia.
  pose proof (payload_length packet Hd) as Hpay.
  unfold render. fold seq.
  destruct (snprintf_at_fits buf 0 [] (fmt_header seq (rssi packet) (len packet - 1)))
    as (buf1 & -> & Hh1); [by repeat split | lia |].
  destruct (hex_loop_fits packet _ _ (loop_reads_payload packet Hd) buf1 _ _ Hh1)
    as (buf2 & -> & Hh2); [lia|].
  destruct (snprintf_at_fits buf2 _ _ [CR; LF] Hh2) as (buf3 & -> & Hh3);
    [cbn [length]; lia|].
  destruct Hh3 as (Hlen3 & Hpos3 & Htake3).
  exists buf3. split; [|done].
  match goal with |- context [?p <=? OUTPUT_BUFFER_SIZE] =>
    destruct (p <=? OUTPUT_BUFFER_SIZE) eqn:Hle;
      [|exfalso; apply Z.leb_gt in Hle; rewrite Hhead, Hpay in Hle;
        cbn [length] in Hle; lia] end.
  rewrite Hpos3, Nat2Z.id, Htake3. unfold relay_line.
  by rewrite <- !app_assoc.
Qed.

End Render.

(** ** The relay line *)

Lemma boot_buffer_length :
  Z.of_nat (length (output_buffer boot_state)) = OUTPUT_BUFFER_SIZE.
Proof. reflexivity. Qed.

Lemma test_packet_wf : wf_packet test_packet.
Proof. unfold wf_packet, MAX_FRAME_SIZE. simpl. repeat split; lia. Qed.

Lemma full_packet_wf : wf_packet full_packet.
Proof.
  unfold wf_packet, MAX_FRAME_SIZE. simpl data. simpl len. simpl rssi.
  repeat split; first [lia | reflexivity].
Qed.

Lemma count_field_reads_back (n : Z) :
  0 <= n <= 254 -> parse_field (fmt_3d n) = Some n.
Proof.
  intros Hn.
  assert (Hall : forallb (fun k => bool_decide (parse_field (fmt_3d k) = Some k))
                         (seqZ 0 255) = true) by (vm_compute; reflexivity).
  rewrite forallb_forall in Hall.
  specialize (Hall n). rewrite bool_decide_eq_true in Hall.
  apply Hall, list_elem_of_In, elem_of_seqZ. lia.
Qed.

(** C5.  A record with [len = 5] whose array starts with 04 AA BB CC DD and
    whose [rssi] is -42, rendered when the tick count reduced modulo
    1,000,000 is 12345, is written to the serial port as
    "[ 12345|RSSI: -42dB|  4B] AABBCCDD" followed by CR LF: the header with
    its three right-justified fields, two uppercase hexadecimal characters
    for each byte after the length byte, and the line terminator. *)
Theorem relay_line_example (buf : list ascii) (tick : Z) (packet : rx_packet_t) :
  Z.of_nat (length buf) = OUTPUT_BUFFER_SIZE ->
  to_uint32 tick mod 1000000 = 12345 ->
  length (data packet) = Z.to_nat (MAX_FRAME_SIZE + 1) ->
  take 5 (data packet) = [x04; xaa; xbb; xcc; xdd] ->
  len packet = 5 ->
  rssi packet = -42 ->
  exists buf',
    render buf tick packet = Some (buf', relay_line 12345 packet) /\
    string_of_list_ascii (relay_line 12345 packet) = example_line.
Proof.
  intros Hbuf Hseq Hdata Hbytes Hlen Hrssi.
  destruct (render_wf buf tick packet Hbuf) as (buf' & Hr & _).
  { repeat split; rewrite ?Hlen, ?Hrssi; try done; unfold MAX_FRAME_SIZE; lia. }
  exists buf'. rewrite Hseq in Hr. split; [done|].
  unfold relay_line, payload. rewrite Hlen, Hrssi.
  change (Z.to_nat (5 - 1)) with 4%nat.
  rewrite (take_drop_commute (data packet) 4 1). simpl Nat.add.
  rewrite Hbytes. vm_compute. reflexivity.
Qed.

Lemma relay_line_example_witness :
  exists buf',
    render (output_buffer boot_state) 1012345 test_packet
      = Some (buf', relay_line 12345 test_packet) /\
    string_of_list_ascii (relay_line 12345 test_packet) = example_line.
Proof.
  apply (relay_line_example (output_buffer boot_state) 1012345 test_packet);
    reflexivity.
Defined.


(** ** Mode switching and start-up *)

Lemma issued_app (s s' : firmware) (calls : list radio_call) :
  radio_log s' = radio_log s ++ calls -> issued s s' = calls.
Proof. intros H. unfold issued. rewrite H. apply drop_app_length. Qed.

Lemma ESP_ERROR_CHECK_ok (esp_ok : list radio_call -> radio_call -> bool)
    (c : radio_call) (s : firmware) :
  esp_ok (radio_log s) c = true ->
  ESP_ERROR_CHECK esp_ok c s = Done tt (set_radio_log (radio_log s ++ [c]) s).
Proof. intros H. unfold ESP_ERROR_CHECK. by rewrite H. Qed.

Lemma switch_mode_same (esp_ok : list radio_call -> radio_call -> bool)
    (new_mode : operation_mode_t) (s : firmware) :
  current_mode s = new_mode -> switch_mode esp_ok new_mode s = Done tt s.
Proof.
  intros Hm. unfold switch_mode. run_monad.
  destruct (decide (current_mode s = new_mode)); done.
Qed.

Lemma switch_mode_other (esp_ok : list radio_call -> radio_call -> bool)
    (new_mode : operation_mode_t) (s : firmware) :
  current_mode s <> new_mode ->
  accepts esp_ok (radio_log s) (reconfiguration new_mode) = true ->
  switch_mode esp_ok new_mode s = Done tt (mode_switched new_mode s).
Proof.
  intros Hm Hok. unfold switch_mode. run_monad.
  destruct (decide (current_mode s = new_mode)); [done|].
  destruct new_mode; simpl in Hok;
    repeat (apply andb_prop in Hok as [? Hok]); simpl;
    repeat (match goal with H : esp_ok _ _ = true |- _ => rewrite H end; simpl);
    unfold mode_switched; simpl; rewrite <- ?app_assoc; reflexivity.
Qed.

(** C7.  [switch_mode] called with the mode already in force makes no
    driver call and changes nothing; called with the other mode (the driver
    accepting the calls) it sets the mode and makes exactly the calls of
    that mode's reconfiguration sequence, once and in order, and a repeated
    request then makes none. *)
Theorem switch_mode_idempotent (esp_ok : list radio_call -> radio_call -> bool)
    (new_mode : operation_mode_t) (s : firmware) :
  (current_mode s = new_mode ->
     switch_mode esp_ok new_mode s = Done tt s /\ issued s s = []) /\
  (current_mode s <> new_mode ->
   accepts esp_ok (radio_log s) (reconfiguration new_mode) = true ->
     exists s',
       switch_mode esp_ok new_mode s = Done tt s' /\
       s' = mode_switched new_mode s /\
       current_mode s' = new_mode /\
       issued s s' = reconfiguration new_mode /\
       switch_mode esp_ok new_mode s' = Done tt s').
Proof.
  split.
  - intros Hm. split; [by apply switch_mode_same|].
    unfold issued. apply drop_all.
  - intros Hm Hok. exists (mode_switched new_mode s).
    repeat split.
    + by apply switch_mode_other.
    + by apply issued_app.
    + by apply switch_mode_same.
Qed.

Lemma switch_mode_idempotent_witness :
  (switch_mode all_ok MODE_TX boot_state = Done tt boot_state /\
   issued boot_state boot_state = []) /\
  exists s',
    switch_mode all_ok MODE_SNIFF boot_state = Done tt s' /\
    s' = mode_switched MODE_SNIFF boot_state /\
    current_mode s' = MODE_SNIFF /\
    issued boot_state s' = reconfiguration MODE_SNIFF /\
    switch_mode all_ok MODE_SNIFF s' = Done tt s'.
Proof.
  split.
  - apply (proj1 (switch_mode_idempotent all_ok MODE_TX boot_state)). reflexivity.
  - apply (proj2 (switch_mode_idempotent all_ok MODE_SNIFF boot_state)).
    + discriminate.
    + reflexivity.
Defined.

(** The interrupt handler and the relay task never write [current_mode]. *)
Lemma receive_done_keeps_mode (frame : list byte) (frame_rssi : Z)
    (block : option rx_packet_t) (s s' : firmware) :
  esp_ieee802154_receive_done frame frame_rssi block s = Done tt s' ->
  current_mode s' = current_mode s.
Proof.
  unfold esp_ieee802154_receive_done. run_monad. intros H.
  repeat (case_match; simplify_eq; simpl in *; try done).
Qed.

Lemma xQueueReceive_keeps_mode (s s' : firmware) :
  xQueueReceive s = Done tt s' -> current_mode s' = current_mode s.
Proof.
  unfold xQueueReceive. intros H.
  repeat (case_match; simplify_eq; simpl in *; try done).
Qed.

Lemma uart_send_packet_keeps_mode (tick : Z) (s s' : firmware) :
  uart_send_packet tick s = Done tt s' -> current_mode s' = current_mode s.
Proof.
  unfold uart_send_packet. run_monad. intros H.
  repeat (case_match; simplify_eq; simpl in *; try done).
Qed.

Lemma run_keeps_mode (evs : list event) (s s' : firmware) :
  run evs s = Done tt s' -> current_mode s' = current_mode s.
Proof.
  revert s. induction evs as [|e evs IH]; intros s H; simpl in H.
  - unfold ret in H. by simplify_eq.
  - unfold bind in H. destruct (step e s) as [[] s1| |] eqn:Hs; try done.
    rewrite (IH _ H). destruct e; simpl in Hs.
    + by eapply receive_done_keeps_mode.
    + by eapply xQueueReceive_keeps_mode.
    + by eapply uart_send_packet_keeps_mode.
Qed.

(** C4, the claim at the initial value: the mode variable is initialised
    to [MODE_TX], so a read of the stored initial value does not yield the
    capture mode. *)
Lemma initial_mode_is_transmit :
  current_mode boot_state = MODE_TX /\ current_mode boot_state <> MODE_SNIFF.
Proof. split; [reflexivity | discriminate]. Qed.


(** ** The receive callback, branch by branch *)

Lemma fresh_not_live (s : firmware) : heap s !! fresh (dom (heap s)) = None.
Proof. apply not_elem_of_dom, is_fresh. Qed.

Lemma packet_len_of_small (frame0 : byte) :
  byte_val frame0 <= MAX_FRAME_SIZE -> packet_len_of frame0 = byte_val frame0 + 1.
Proof.
  intros H. pose proof (byte_val_range frame0).
  unfold packet_len_of, to_uint8, MAX_FRAME_SIZE in *.
  apply Z.mod_small. lia.
Qed.

Lemma memcpy_fits (frame : list byte) (frame0 : byte) (stale : rx_packet_t) :
  byte_val frame0 <= MAX_FRAME_SIZE ->
  byte_val frame0 + 1 <= Z.of_nat (length frame) ->
  memcpy (MAX_FRAME_SIZE + 1) (data stale) frame (packet_len_of frame0)
    = Some (take (Z.to_nat (packet_len_of frame0)) frame
              ++ drop (Z.to_nat (packet_len_of frame0)) (data stale)).
Proof.
  intros Hphy Hbuf. unfold memcpy. rewrite packet_len_of_small by done.
  destruct (_ && _) eqn:Hb; [done|].
  apply andb_false_iff in Hb as [Hb|Hb]; apply Z.leb_gt in Hb; lia.
Qed.

Lemma receive_done_gated (frame : list byte) (frame_rssi : Z)
    (block : option rx_packet_t) (s : firmware) :
  current_mode s <> MODE_SNIFF ->
  esp_ieee802154_receive_done frame frame_rssi block s = Done tt s.
Proof.
  intros Hm. unfold esp_ieee802154_receive_done. run_monad.
  destruct (decide (current_mode s ≠ MODE_SNIFF)); done.
Qed.

Lemma receive_done_no_memory (frame : list byte) (frame_rssi : Z) (s : firmware) :
  current_mode s = MODE_SNIFF ->
  esp_ieee802154_receive_done frame frame_rssi None s
    = Done tt (set_radio_log (radio_log s ++ [esp_ieee802154_receive]) (dropped_one s)).
Proof.
  intros Hm. unfold esp_ieee802154_receive_done. run_monad.
  destruct (decide (current_mode s ≠ MODE_SNIFF)); done.
Qed.

Lemma receive_done_enqueued (frame : list byte) (frame0 : byte) (frame_rssi : Z)
    (stale : rx_packet_t) (s : firmware) :
  current_mode s = MODE_SNIFF ->
  frame !! 0%nat = Some frame0 ->
  byte_val frame0 <= MAX_FRAME_SIZE ->
  byte_val frame0 + 1 <= Z.of_nat (length frame) ->
  Z.of_nat (length (rx_queue s)) < QUEUE_SIZE ->
  esp_ieee802154_receive_done frame frame_rssi (Some stale) s
    = Done tt
        (rearmed frame
           (set_rx_queue (rx_queue s ++ [fresh (dom (heap s))])
              (set_heap (<[fresh (dom (heap s)) := captured frame frame0 frame_rssi stale]>
                           (heap s)) s))).
Proof.
  intros Hm H0 Hphy Hbuf Hroom.
  pose proof (memcpy_fits frame frame0 stale Hphy Hbuf) as Hcpy.
  unfold packet_len_of in Hcpy.
  unfold esp_ieee802154_receive_done. run_monad.
  destruct (decide (current_mode s ≠ MODE_SNIFF)); [done|].
  simpl. rewrite !lookup_insert_eq, H0. simpl. rewrite Hcpy. simpl.
  rewrite lookup_insert_eq. simpl.
  destruct (Z.of_nat (length (rx_queue s)) <? QUEUE_SIZE) eqn:Hq;
    [|apply Z.ltb_ge in Hq; lia].
  simpl. unfold rearmed, captured, packet_len_of. simpl.
  rewrite insert_insert_eq, <- app_assoc. reflexivity.
Qed.

Lemma receive_done_queue_full (frame : list byte) (frame0 : byte) (frame_rssi : Z)
    (stale : rx_packet_t) (s : firmware) :
  current_mode s = MODE_SNIFF ->
  frame !! 0%nat = Some frame0 ->
  byte_val frame0 <= MAX_FRAME_SIZE ->
  byte_val frame0 + 1 <= Z.of_nat (length frame) ->
  QUEUE_SIZE <= Z.of_nat (length (rx_queue s)) ->
  esp_ieee802154_receive_done frame frame_rssi (Some stale) s
    = Done tt (rearmed frame (dropped_one s)).
Proof.
  intros Hm H0 Hphy Hbuf Hfull.
  pose proof (memcpy_fits frame frame0 stale Hphy Hbuf) as Hcpy.
  unfold packet_len_of in Hcpy.
  unfold esp_ieee802154_receive_done. run_monad.
  destruct (decide (current_mode s ≠ MODE_SNIFF)); [done|].
  simpl. rewrite !lookup_insert_eq, H0. simpl. rewrite Hcpy. simpl.
  rewrite lookup_insert_eq. simpl.
  destruct (Z.of_nat (length (rx_queue s)) <? QUEUE_SIZE) eqn:Hq;
    [apply Z.ltb_lt in Hq; lia|].
  simpl. rewrite lookup_insert_eq. simpl.
  unfold rearmed, dropped_one. simpl.
  rewrite !delete_insert_eq, (delete_id _ _ (fresh_not_live s)), <- app_assoc.
  by destruct s.
Qed.

(** ** Queue occupancy, drop counter and ownership *)

Lemma to_int8_range (z : Z) : -128 <= to_int8 z <= 127.
Proof. unfold to_int8. pose proof (Z.mod_pos_bound (z + 128) 256). lia. Qed.

Lemma captured_wf (frame : list byte) (frame0 : byte) (frame_rssi : Z)
    (stale : rx_packet_t) :
  byte_val frame0 <= MAX_FRAME_SIZE ->
  byte_val frame0 + 1 <= Z.of_nat (length frame) ->
  length (data stale) = Z.to_nat (MAX_FRAME_SIZE + 1) ->
  wf_packet (captured frame frame0 frame_rssi stale).
Proof.
  intros Hphy Hbuf Hstale. pose proof (byte_val_range frame0).
  unfold wf_packet, captured. simpl.
  rewrite packet_len_of_small by done.
  repeat split; try lia; try apply to_int8_range.
  rewrite length_app, length_take, length_drop, Hstale.
  unfold MAX_FRAME_SIZE in *. lia.
Qed.

Lemma fresh_not_owned (s : firmware) :
  dom (heap s) = list_to_set (owned s) -> fresh (dom (heap s)) ∉ owned s.
Proof.
  intros Hdom Hin. apply (is_fresh (dom (heap s))).
  assert (Hin' : fresh (dom (heap s)) ∈ (list_to_set (owned s) : gset nat))
    by (by rewrite elem_of_list_to_set).
  by rewrite <- Hdom in Hin'.
Qed.

Lemma receive_done_inv (frame : list byte) (frame_rssi : Z)
    (block : option rx_packet_t) (s : firmware) :
  fw_inv s -> frame_fits frame -> wf_block block ->
  exists s', esp_ieee802154_receive_done frame frame_rssi block s = Done tt s' /\
             fw_inv s'.
Proof.
  intros (Hocc & Hnd & Hdom & Hwf & Hbuf) (frame0 & H0 & Hphy & Hlen) Hblock.
  destruct (decide (current_mode s = MODE_SNIFF)) as [Hm|Hm].
  2: { exists s. split; [by apply receive_done_gated | done]. }
  destruct block as [stale|].
  2: { eexists. split; [by apply receive_done_no_memory | done]. }
  destruct (decide (Z.of_nat (length (rx_queue s)) < QUEUE_SIZE)) as [Hroom|Hfull].
  - eexists. split; [by eapply receive_done_enqueued|].
    pose proof (fresh_not_owned s Hdom) as Hfresh.
    unfold fw_inv, owned in *. simpl. rewrite app_assoc. split_and!.
    + rewrite length_app. simpl. lia.
    + apply NoDup_app. repeat split; [done | | apply NoDup_singleton].
      intros p Hp ->%list_elem_of_singleton. by apply Hfresh.
    + rewrite dom_insert_L, list_to_set_app_L, Hdom.
      apply set_eq. intros x.
      rewrite !elem_of_union, !elem_of_list_to_set, list_elem_of_singleton,
        elem_of_singleton.
      tauto.
    + apply map_Forall_insert_2; [|done]. by apply captured_wf.
    + done.
  - eexists. split; [eapply receive_done_queue_full; try done; lia|]. done.
Qed.

Lemma xQueueReceive_inv (s : firmware) :
  fw_inv s -> exists s', xQueueReceive s = Done tt s' /\ fw_inv s'.
Proof.
  intros Hinv. unfold xQueueReceive.
  destruct (relay_packet s) as [held|] eqn:Hheld; [by exists s|].
  destruct (rx_queue s) as [|p queue] eqn:Hq; [by exists s|].
  eexists. split; [reflexivity|].
  destruct Hinv as (Hocc & Hnd & Hdom & Hwf & Hbuf).
  unfold fw_inv, owned in *. rewrite Hheld, Hq in *. simpl in *.
  split_and!; try done. lia.
Qed.

Lemma uart_send_packet_inv (tick : Z) (s : firmware) :
  fw_inv s ->
  exists s', uart_send_packet tick s = Done tt s' /\ fw_inv s'.
Proof.
  intros Hinv.
  unfold uart_send_packet. run_monad.
  destruct (relay_packet s) as [p|] eqn:Hheld; [|by exists s].
  destruct Hinv as (Hocc & Hnd & Hdom & Hwf & Hbuf).
  unfold owned in *. rewrite Hheld in *. simpl in Hnd, Hdom.
  assert (Hp : p ∈ dom (heap s))
    by (rewrite Hdom, elem_of_union, elem_of_singleton; by left).
  apply elem_of_dom in Hp as [packet Hp].
  rewrite Hp.
  destruct (render_wf (output_buffer s) tick packet Hbuf (Hwf p packet Hp))
    as (buf' & Hr & Hbuf').
  rewrite Hr. simpl. rewrite Hp.
  eexists. split; [reflexivity|].
  apply NoDup_cons in Hnd as [Hnotin Hnd].
  unfold fw_inv, owned. simpl. split_and!; try done.
  - rewrite dom_delete_L, Hdom.
    apply set_eq. intros x.
    rewrite elem_of_difference, elem_of_union, !elem_of_list_to_set,
      !elem_of_singleton.
    split; [intros [[?|?] ?]; done|].
    intros Hx. split; [by right|]. by intros ->.
  - by apply map_Forall_delete.
Qed.

(** X6.  A whole turn of the relay task on a non-empty queue takes the
    oldest record, writes its line to the serial port and frees it; the
    other records stay queued in their order. *)
Lemma uart_send_task_writes_line (tick : Z) (s : firmware)
    (p : nat) (queue : list nat) (packet : rx_packet_t) :
  fw_inv s ->
  relay_packet s = None -> rx_queue s = p :: queue -> heap s !! p = Some packet ->
  exists s',
    uart_send_task tick s = Done tt s' /\
    uart_tx s' = uart_tx s ++ [relay_line (to_uint32 tick mod 1000000) packet] /\
    rx_queue s' = queue /\
    heap s' = delete p (heap s) /\
    relay_packet s' = None.
Proof.
  intros (Hocc & Hnd & Hdom & Hwf & Hbuf) Hheld Hq Hp.
  unfold uart_send_task, uart_send_packet. run_monad.
  rewrite Hheld, Hq. simpl. rewrite Hp.
  destruct (render_wf (output_buffer s) tick packet Hbuf (Hwf p packet Hp))
    as (buf' & Hr & _).
  change (output_buffer (set_relay_packet (Some p) (set_rx_queue queue s)))
    with (output_buffer s).
  rewrite Hr. simpl. rewrite Hp. eexists. by split_and!.
Qed.

Lemma run_inv (evs : list event) (s : firmware) :
  fw_inv s -> Forall wf_event evs ->
  exists s', run evs s = Done tt s' /\ fw_inv s'.
Proof.
  intros Hinv Hevs. revert s Hinv.
  induction Hevs as [|e evs He _ IH]; intros s Hinv; simpl.
  - by exists s.
  - assert (exists s1, step e s = Done tt s1 /\ fw_inv s1) as (s1 & Hs & Hinv1).
    { destruct e as [frame frame_rssi block| |tick]; simpl.
      - destruct He. by apply receive_done_inv.
      - by apply xQueueReceive_inv.
      - by apply uart_send_packet_inv. }
    unfold bind. rewrite Hs. by apply IH.
Qed.

Lemma sniff_state_inv : fw_inv sniff_state.
Proof.
  unfold fw_inv, sniff_state. simpl. split_and!.
  - unfold QUEUE_SIZE. lia.
  - apply NoDup_nil_2.
  - apply dom_empty_L.
  - apply map_Forall_empty.
  - reflexivity.
Qed.

Lemma short_frame_fits : frame_fits short_frame.
Proof.
  exists x03. split_and!; [reflexivity | |]; vm_compute; discriminate.
Qed.

(** C6.  After any sequence of callback invocations and relay turns the
    queue holds at most 40 records, each queued address is a live block and
    each live block is queued; at the next invocation, a failed allocation
    and a failed enqueue each add exactly one to the drop counter and leave
    no block allocated (the record that was not enqueued is freed and is not
    in the queue), a successful enqueue leaves the counter alone and the
    record live and queued, and a frame arriving outside capture mode
    changes nothing. *)
Theorem capture_queue_and_drop_counter
    (evs : list event) (s : firmware)
    (frame : list byte) (frame_rssi : Z) (block : option rx_packet_t) :
  fw_inv s -> Forall wf_event evs -> frame_fits frame -> wf_block block ->
  exists s1 s2,
    run evs s = Done tt s1 /\
    esp_ieee802154_receive_done frame frame_rssi block s1 = Done tt s2 /\
    fw_inv s1 /\ fw_inv s2 /\
    Z.of_nat (length (rx_queue s1)) <= 40 /\
    capture_outcome block s1 s2.
Proof.
  intros Hinv Hevs Hfits Hblock.
  destruct (run_inv evs s Hinv Hevs) as (s1 & Hrun & Hinv1).
  destruct (receive_done_inv frame frame_rssi block s1 Hinv1 Hfits Hblock)
    as (s2 & Hstep & Hinv2).
  exists s1, s2. split_and!; try done; [apply Hinv1|].
  destruct Hfits as (frame0 & H0 & Hphy & Hlen).
  pose proof (fresh_not_live s1) as Hfresh.
  destruct Hinv1 as (_ & _ & Hdom1 & _).
  assert (Hnq : fresh (dom (heap s1)) ∉ rx_queue s1).
  { intros Hin. apply (fresh_not_owned s1 Hdom1).
    unfold owned. apply elem_of_app. by right. }
  unfold capture_outcome. split_and!.
  - apply Hinv2.
  - intros Hm. rewrite receive_done_gated in Hstep by done. by simplify_eq.
  - intros Hm ->. rewrite receive_done_no_memory in Hstep by done.
    by simplify_eq.
  - intros Hm [stale ->] Hfull.
    rewrite (receive_done_queue_full _ frame0) in Hstep by done.
    simplify_eq. simpl. split_and!; try done. by apply not_elem_of_dom.
  - intros Hm [stale ->] Hroom.
    rewrite (receive_done_enqueued _ frame0) in Hstep by done.
    simplify_eq. simpl. split_and!; try done.
    rewrite dom_insert_L. apply elem_of_union_l. by apply elem_of_singleton.
Qed.

Lemma capture_queue_and_drop_counter_witness :
  exists s1 s2,
    run [ev_frame short_frame (-40) (Some zero_block); ev_relay_receive; ev_relay_send 7;
         ev_frame short_frame (-41) None] sniff_state = Done tt s1 /\
    esp_ieee802154_receive_done short_frame (-42) (Some zero_block) s1 = Done tt s2 /\
    fw_inv s1 /\ fw_inv s2 /\
    Z.of_nat (length (rx_queue s1)) <= 40 /\
    capture_outcome (Some zero_block) s1 s2.
Proof.
  apply (capture_queue_and_drop_counter
           [ev_frame short_frame (-40) (Some zero_block); ev_relay_receive; ev_relay_send 7;
            ev_frame short_frame (-41) None]
           sniff_state short_frame (-42) (Some zero_block)).
  - exact sniff_state_inv.
  - repeat constructor; try exact short_frame_fits; reflexivity.
  - exact short_frame_fits.
  - reflexivity.
Defined.

(** ** Radio calls made by the callback *)

(** C1, the claim on the mode-gated branch: with the mode at [MODE_TX] the
    callback returns at once; it makes no driver call, so it neither signals
    that the buffer was consumed nor re-arms reception. *)
Lemma receive_done_gated_makes_no_call :
  esp_ieee802154_receive_done short_frame (-40) (Some zero_block) boot_state
    = Done tt boot_state /\
  count_calls is_handle_done (issued boot_state boot_state) = 0%nat /\
  count_calls is_receive (issued boot_state boot_state) = 0%nat.
Proof. repeat split. Qed.

(** When [malloc] fails the callback counts the drop and calls
    [esp_ieee802154_receive] only. *)
Lemma receive_done_no_memory_calls (frame : list byte) (frame_rssi : Z) (s : firmware) :
  current_mode s = MODE_SNIFF ->
  exists s',
    esp_ieee802154_receive_done frame frame_rssi None s = Done tt s' /\
    issued s s' = [esp_ieee802154_receive].
Proof.
  intros Hm. eexists. split; [by apply receive_done_no_memory|].
  by apply issued_app.
Qed.

(** C1, as the code has it.  In capture mode with a record allocated, the
    callback signals buffer-consumed exactly once and then re-arms
    reception exactly once, whether the enqueue succeeds or fails; when the
    allocation fails it re-arms reception exactly once; outside capture
    mode it returns at once and makes no driver call. *)
Theorem receive_done_radio_calls
    (frame : list byte) (frame_rssi : Z) (block : option rx_packet_t) (s : firmware) :
  frame_fits frame ->
  exists s',
    esp_ieee802154_receive_done frame frame_rssi block s = Done tt s' /\
    (current_mode s <> MODE_SNIFF -> s' = s /\ issued s s' = []) /\
    (current_mode s = MODE_SNIFF -> block = None ->
       count_calls is_receive (issued s s') = 1%nat) /\
    (current_mode s = MODE_SNIFF -> is_Some block ->
       issued s s' = [esp_ieee802154_receive_handle_done frame; esp_ieee802154_receive] /\
       count_calls is_handle_done (issued s s') = 1%nat /\
       count_calls is_receive (issued s s') = 1%nat).
Proof.
  intros (frame0 & H0 & Hphy & Hlen).
  destruct (decide (current_mode s = MODE_SNIFF)) as [Hm|Hm].
  2: { exists s. split; [by apply receive_done_gated|].
       split_and!; try done. intros _. split; [done|]. unfold issued. apply drop_all. }
  destruct block as [stale|].
  2: { eexists. split; [by apply receive_done_no_memory|].
       split_and!; try done.
       intros _ _. by rewrite (issued_app _ _ [esp_ieee802154_receive]). }
  assert (exists s', esp_ieee802154_receive_done frame frame_rssi (Some stale) s
                       = Done tt (rearmed frame s')) as (s' & Hs).
  { destruct (decide (Z.of_nat (length (rx_queue s)) < QUEUE_SIZE)).
    - eexists. by eapply receive_done_enqueued.
    - eexists. eapply receive_done_queue_full; try done. lia. }
  assert (Hlog : radio_log s' = radio_log s).
  { destruct (decide (Z.of_nat (length (rx_queue s)) < QUEUE_SIZE)).
    - rewrite (receive_done_enqueued _ frame0) in Hs by done.
      apply (f_equal (fun o => match o with Done _ t => radio_log t | _ => [] end)) in Hs.
      simpl in Hs. by apply app_inv_tail in Hs.
    - rewrite (receive_done_queue_full _ frame0) in Hs by (try done; lia).
      apply (f_equal (fun o => match o with Done _ t => radio_log t | _ => [] end)) in Hs.
      simpl in Hs. by apply app_inv_tail in Hs. }
  exists (rearmed frame s'). split; [done|].
  split_and!; try done.
  intros _ _.
  assert (Hi : issued s (rearmed frame s')
               = [esp_ieee802154_receive_handle_done frame; esp_ieee802154_receive]).
  { apply issued_app. simpl. by rewrite Hlog. }
  by rewrite Hi.
Qed.

Lemma receive_done_radio_calls_witness :
  exists s',
    esp_ieee802154_receive_done short_frame (-40) (Some zero_block) sniff_state
      = Done tt s' /\
    (current_mode sniff_state <> MODE_SNIFF ->
       s' = sniff_state /\ issued sniff_state s' = []) /\
    (current_mode sniff_state = MODE_SNIFF -> Some zero_block = None ->
       count_calls is_receive (issued sniff_state s') = 1%nat) /\
    (current_mode sniff_state = MODE_SNIFF -> is_Some (Some zero_block) ->
       issued sniff_state s'
         = [esp_ieee802154_receive_handle_done short_frame; esp_ieee802154_receive] /\
       count_calls is_handle_done (issued sniff_state s') = 1%nat /\
       count_calls is_receive (issued sniff_state s') = 1%nat).
Proof.
  apply (receive_done_radio_calls short_frame (-40) (Some zero_block) sniff_state).
  exact short_frame_fits.
Defined.

(** ** Bytes copied into a record *)

(** C3, the claim at a leading byte above the PHY limit: for a first byte
    of 200 the length stored is 201 and [memcpy] is asked for 201 bytes,
    more than the 128 of [data]. *)
Lemma receive_done_copies_past_record :
  long_frame !! 0%nat = Some xc8 /\
  packet_len_of xc8 = 201 /\
  MAX_FRAME_SIZE + 1 < packet_len_of xc8 /\
  memcpy (MAX_FRAME_SIZE + 1) (data zero_block) long_frame (packet_len_of xc8) = None /\
  esp_ieee802154_receive_done long_frame (-40) (Some zero_block) sniff_state = Fault.
Proof. repeat split; vm_compute; reflexivity. Qed.

(** C3, as the code has it.  For a frame whose leading byte is at most 127
    (the PHY limit) and which the driver buffer holds whole, the number of
    bytes copied into the new record is that byte plus one, at most 128, the
    size of [data]; the record holds those bytes, that length and the
    signal strength. *)
Theorem receive_done_copy_bounded
    (frame : list byte) (frame0 : byte) (frame_rssi : Z)
    (stale : rx_packet_t) (s : firmware) :
  current_mode s = MODE_SNIFF ->
  frame !! 0%nat = Some frame0 ->
  byte_val frame0 <= MAX_FRAME_SIZE ->
  byte_val frame0 + 1 <= Z.of_nat (length frame) ->
  exists s',
    esp_ieee802154_receive_done frame frame_rssi (Some stale) s = Done tt s' /\
    packet_len_of frame0 = byte_val frame0 + 1 /\
    packet_len_of frame0 <= MAX_FRAME_SIZE + 1 /\
    memcpy (MAX_FRAME_SIZE + 1) (data stale) frame (packet_len_of frame0)
      = Some (data (captured frame frame0 frame_rssi stale)) /\
    take (Z.to_nat (packet_len_of frame0)) (data (captured frame frame0 frame_rssi stale))
      = take (Z.to_nat (packet_len_of frame0)) frame /\
    (Z.of_nat (length (rx_queue s)) < QUEUE_SIZE ->
       heap s' !! fresh (dom (heap s)) = Some (captured frame frame0 frame_rssi stale)).
Proof.
  intros Hm H0 Hphy Hlen.
  pose proof (packet_len_of_small frame0 Hphy) as Hsmall.
  pose proof (byte_val_range frame0) as Hrange.
  assert (exists s', esp_ieee802154_receive_done frame frame_rssi (Some stale) s
                       = Done tt s' /\
                     (Z.of_nat (length (rx_queue s)) < QUEUE_SIZE ->
                      heap s' !! fresh (dom (heap s))
                        = Some (captured frame frame0 frame_rssi stale)))
    as (s' & Hs & Hheap).
  { destruct (decide (Z.of_nat (length (rx_queue s)) < QUEUE_SIZE)).
    - eexists. split; [by eapply receive_done_enqueued|].
      intros _. simpl. apply lookup_insert_eq.
    - eexists. split; [eapply receive_done_queue_full; try done; lia | done]. }
  exists s'. split_and!; try done.
  - lia.
  - by apply memcpy_fits.
  - simpl. rewrite take_app_le; [|rewrite length_take; lia].
    by rewrite take_take, Nat.min_id.
Qed.

Lemma receive_done_copy_bounded_witness :
  exists s',
    esp_ieee802154_receive_done short_frame (-40) (Some zero_block) sniff_state
      = Done tt s' /\
    packet_len_of x03 = byte_val x03 + 1 /\
    packet_len_of x03 <= MAX_FRAME_SIZE + 1 /\
    memcpy (MAX_FRAME_SIZE + 1) (data zero_block) short_frame (packet_len_of x03)
      = Some (data (captured short_frame x03 (-40) zero_block)) /\
    take (Z.to_nat (packet_len_of x03)) (data (captured short_frame x03 (-40) zero_block))
      = take (Z.to_nat (packet_len_of x03)) short_frame /\
    (Z.of_nat (length (rx_queue sniff_state)) < QUEUE_SIZE ->
       heap s' !! fresh (dom (heap sniff_state))
         = Some (captured short_frame x03 (-40) zero_block)).
Proof.
  apply (receive_done_copy_bounded short_frame x03 (-40) zero_block sniff_state).
  - reflexivity.
  - reflexivity.
  - vm_compute. discriminate.
  - vm_compute. discriminate.
Defined.

(** ** The command task *)

Lemma starts_with_spec (needle s : list ascii) :
  starts_with needle s = true <-> exists after, s = needle ++ after.
Proof.
  revert s. induction needle as [|n needle IH]; intros s; simpl.
  - split; [intros _; by exists s | done].
  - destruct s as [|c s].
    + split; [done | intros [after Hs]; discriminate].
    + rewrite andb_true_iff, IH. split.
      * intros [Hc [after ->]]. apply Ascii.eqb_eq in Hc as ->. by exists after.
      * intros [after Hs]. simplify_eq. split; [apply Ascii.eqb_refl | by exists after].
Qed.

(** [strstr] is the substring search. *)
Lemma strstr_spec (haystack needle : list ascii) :
  strstr haystack needle = true <-> contains needle haystack.
Proof.
  unfold contains. induction haystack as [|c haystack IH].
  - simpl. rewrite orb_false_r, starts_with_spec. split.
    + intros [after Hs]. by exists [], after.
    + intros (before & after & Hs). destruct before; [by exists after | done].
  - cbn [strstr]. rewrite orb_true_iff, starts_with_spec, IH. split.
    + intros [[after Hs] | (before & after & Hs)].
      * by exists [], after.
      * exists (c :: before), after. by rewrite Hs.
    + intros (before & after & Hs). destruct before as [|b before].
      * left. by exists after.
      * right. simpl in Hs. injection Hs as _ Hs. by exists before, after.
Qed.

Lemma c_str_terminated (s : list ascii) : c_str (s ++ [NUL]) = c_str s.
Proof.
  induction s as [|c s IH]; [done|].
  simpl. by rewrite IH.
Qed.

Lemma c_str_no_nul (s : list ascii) : NUL ∉ s -> c_str s = s.
Proof.
  induction s as [|c s IH]; [done|].
  intros Hn. apply not_elem_of_cons in Hn as [Hc Hs]. simpl.
  destruct (Ascii.eqb c NUL) eqn:Hcn.
  - apply Ascii.eqb_eq in Hcn. by subst.
  - by rewrite IH.
Qed.

(** The test [strncmp(buf, prefix, n) == 0] with [n] the length of a
    prefix that has no NUL: [buf] starts with the prefix. *)
Lemma c_str_take_prefix (p mem : list ascii) :
  NUL ∉ p ->
  take (length p) (c_str mem) = p <-> p `prefix_of` mem.
Proof.
  revert mem. induction p as [|a p IH]; intros mem Hn.
  - split; [intros _; apply prefix_nil | done].
  - apply not_elem_of_cons in Hn as [Ha Hp].
    destruct mem as [|c mem].
    + split; [done | intros [k Hk]; discriminate].
    + simpl. destruct (Ascii.eqb c NUL) eqn:Hc.
      * apply Ascii.eqb_eq in Hc as ->. split; [done|].
        intros [k Hk]. simpl in Hk. by simplify_eq.
      * simpl. split.
        -- intros Heq. simplify_eq. apply prefix_cons. by apply IH.
        -- intros [k Hk]. simpl in Hk. simplify_eq. f_equal.
           apply IH; [done|]. by exists k.
Qed.

Lemma is_command_spec (chunk : list byte) :
  strncmp_eq (text_of (chunk ++ [x00]))
             (list_ascii_of_string CMD_PREFIX ++ [NUL]) CMD_PREFIX_LEN = true
  <-> list_ascii_of_string CMD_PREFIX `prefix_of` text_of chunk.
Proof.
  unfold strncmp_eq. rewrite bool_decide_eq_true.
  unfold text_of. rewrite map_app. change (map ascii_of_byte [x00]) with [NUL].
  rewrite !c_str_terminated.
  change (take (Z.to_nat CMD_PREFIX_LEN) (c_str (list_ascii_of_string CMD_PREFIX)))
    with (list_ascii_of_string CMD_PREFIX).
  change (Z.to_nat CMD_PREFIX_LEN) with (length (list_ascii_of_string CMD_PREFIX)).
  apply c_str_take_prefix.
  vm_compute. intros H. repeat (inversion H as [|? ? ? H']; clear H; rename H' into H; subst).
Qed.

Lemma command_turn (esp_ok : list radio_call -> radio_call -> bool)
    (pending tx_frame0 : list byte) (rest : list ascii) (s : firmware) :
  text_of (uart_read_bytes pending (BUF_SIZE - 1))
    = list_ascii_of_string CMD_PREFIX ++ rest ->
  uart_receive_task esp_ok pending tx_frame0 s
    = match classify (c_str rest) with
      | SetMode m => switch_mode esp_ok m (logged (log_command (c_str rest)) s)
      | ReportStatus =>
          Done tt (logged (status_of s) (logged (log_command (c_str rest)) s))
      | Unrecognized => Done tt (logged (log_command (c_str rest)) s)
      end.
Proof.
  intros Htext. unfold uart_receive_task.
  set (chunk := uart_read_bytes pending (BUF_SIZE - 1)) in *.
  assert (Hlen : (0 <? Z.of_nat (length chunk)) = true).
  { apply Z.ltb_lt. apply (f_equal length) in Htext.
    unfold text_of in Htext. rewrite length_map, length_app in Htext.
    simpl in Htext. lia. }
  rewrite Hlen.
  assert (Hcmd : strncmp_eq (text_of (chunk ++ [x00]))
                   (list_ascii_of_string CMD_PREFIX ++ [NUL]) CMD_PREFIX_LEN = true).
  { apply is_command_spec. rewrite Htext. by exists rest. }
  rewrite Hcmd.
  assert (Hrest : c_str (drop (Z.to_nat CMD_PREFIX_LEN) (text_of (chunk ++ [x00])))
                  = c_str rest).
  { unfold text_of in *. rewrite map_app, Htext.
    change (map ascii_of_byte [x00]) with [NUL].
    rewrite <- app_assoc.
    change (Z.to_nat CMD_PREFIX_LEN) with (length (list_ascii_of_string CMD_PREFIX)).
    by rewrite drop_app_length, c_str_terminated. }
  rewrite Hrest. unfold classify.
  unfold bind at 1. unfold ESP_LOGI at 1, modify at 1.
  fold (logged (log_command (c_str rest)) s).
  destruct (strstr (c_str rest) KW_MODE_SNIFF); [done|].
  destruct (strstr (c_str rest) KW_MODE_TX); [done|].
  destruct (strstr (c_str rest) KW_STATUS); [|done].
  run_monad. unfold status_of, mode_name, logged. simpl.
  by destruct (decide (current_mode s = MODE_SNIFF)).
Qed.

Lemma non_command_in_capture (esp_ok : list radio_call -> radio_call -> bool)
    (pending tx_frame0 : list byte) (s : firmware) :
  ~ list_ascii_of_string CMD_PREFIX
      `prefix_of` text_of (uart_read_bytes pending (BUF_SIZE - 1)) ->
  current_mode s = MODE_SNIFF ->
  uart_receive_task esp_ok pending tx_frame0 s = Done tt s.
Proof.
  intros Hnp Hm. unfold uart_receive_task.
  set (chunk := uart_read_bytes pending (BUF_SIZE - 1)) in *.
  destruct (0 <? Z.of_nat (length chunk)); [|done].
  destruct (strncmp_eq _ _ _) eqn:Hcmd.
  - by apply is_command_spec in Hcmd.
  - run_monad. rewrite Hm. by destruct (decide (MODE_SNIFF = MODE_TX)).
Qed.

(** C8, the claim at a chunk with a NUL byte after the prefix: the
    remainder after the prefix contains the transmit keyword, yet the text
    searched ends at the NUL, no keyword is found, and the mode stays
    capture with no driver call. *)
Lemma command_after_nul_is_not_seen :
  text_of nul_chunk
    = list_ascii_of_string CMD_PREFIX ++ NUL :: KW_MODE_TX /\
  strstr (NUL :: KW_MODE_TX) KW_MODE_TX = true /\
  uart_receive_task all_ok nul_chunk (replicate 128 x00) sniff_state
    = Done tt (logged (log_command []) sniff_state) /\
  current_mode (logged (log_command []) sniff_state) = MODE_SNIFF.
Proof. repeat split. Qed.

(** C8, as the code has it.  For a chunk that begins with "#CMD#", the
    text after the prefix up to its first NUL byte (all of it when it has
    none) is searched, case-sensitively, for the keywords in the order
    MODE_SNIFF, MODE_TX, STATUS, and only the action of the first keyword
    found is taken: the switch to capture, the switch to transmit, or the
    status line; with none of the three found, the mode, the radio and the
    status output are left alone.  A chunk that does not begin with the
    prefix, read in capture mode, changes nothing. *)
Theorem command_dispatch (esp_ok : list radio_call -> radio_call -> bool)
    (pending tx_frame0 : list byte) (s : firmware) :
  (forall rest : list ascii,
     text_of (uart_read_bytes pending (BUF_SIZE - 1))
       = list_ascii_of_string CMD_PREFIX ++ rest ->
     let cmd := c_str rest in
     let s0 := logged (log_command cmd) s in
     (NUL ∉ rest -> cmd = rest) /\
     (contains KW_MODE_SNIFF cmd ->
        uart_receive_task esp_ok pending tx_frame0 s
          = switch_mode esp_ok MODE_SNIFF s0) /\
     (~ contains KW_MODE_SNIFF cmd -> contains KW_MODE_TX cmd ->
        uart_receive_task esp_ok pending tx_frame0 s
          = switch_mode esp_ok MODE_TX s0) /\
     (~ contains KW_MODE_SNIFF cmd -> ~ contains KW_MODE_TX cmd ->
      contains KW_STATUS cmd ->
        uart_receive_task esp_ok pending tx_frame0 s
          = Done tt (logged (status_of s) s0)) /\
     (~ contains KW_MODE_SNIFF cmd -> ~ contains KW_MODE_TX cmd ->
      ~ contains KW_STATUS cmd ->
        uart_receive_task esp_ok pending tx_frame0 s = Done tt s0 /\
        current_mode s0 = current_mode s /\
        radio_log s0 = radio_log s /\
        esp_log s0 = esp_log s ++ [log_command cmd])) /\
  (~ list_ascii_of_string CMD_PREFIX
       `prefix_of` text_of (uart_read_bytes pending (BUF_SIZE - 1)) ->
   current_mode s = MODE_SNIFF ->
     uart_receive_task esp_ok pending tx_frame0 s = Done tt s).
Proof.
  split; [|by apply non_command_in_capture].
  intros rest Htext cmd s0.
  pose proof (command_turn esp_ok pending tx_frame0 rest s Htext) as Hturn.
  fold cmd in Hturn. fold s0 in Hturn. unfold classify in Hturn.
  split; [apply c_str_no_nul|].
  repeat split.
  - intros H1. apply strstr_spec in H1. by rewrite H1 in Hturn.
  - intros H1 H2. apply strstr_spec in H2.
    destruct (strstr cmd KW_MODE_SNIFF) eqn:E1; [by apply strstr_spec in E1|].
    by rewrite H2 in Hturn.
  - intros H1 H2 H3. apply strstr_spec in H3.
    destruct (strstr cmd KW_MODE_SNIFF) eqn:E1; [by apply strstr_spec in E1|].
    destruct (strstr cmd KW_MODE_TX) eqn:E2; [by apply strstr_spec in E2|].
    by rewrite H3 in Hturn.
  - destruct (strstr cmd KW_MODE_SNIFF) eqn:E1; [by apply strstr_spec in E1|].
    destruct (strstr cmd KW_MODE_TX) eqn:E2; [by apply strstr_spec in E2|].
    destruct (strstr cmd KW_STATUS) eqn:E3; [by apply strstr_spec in E3|].
    done.
Qed.

Lemma command_dispatch_witness :
  uart_receive_task all_ok tx_command_chunk (replicate 128 x00) sniff_state
    = switch_mode all_ok MODE_TX (logged (log_command KW_MODE_TX) sniff_state).
Proof.
  apply (proj1 (proj2 (proj2
           (proj1 (command_dispatch all_ok tx_command_chunk (replicate 128 x00)
                     sniff_state) KW_MODE_TX eq_refl)))).
  - intros H. apply strstr_spec in H. vm_compute in H. discriminate.
  - by exists [], [].
Defined.

(** ** Raw frames in transmit mode *)

(** X11.  A chunk of at most 128 bytes that is not a command, read in
    transmit mode, is copied to the start of [tx_frame] and handed to the
    radio in one transmit call with no acknowledgement requested; the bytes
    of [tx_frame] after the chunk are whatever the array held. *)
Lemma raw_frame_within_tx_frame (esp_ok : list radio_call -> radio_call -> bool)
    (pending tx_frame0 : list byte) (s : firmware) :
  let chunk := uart_read_bytes pending (BUF_SIZE - 1) in
  ~ list_ascii_of_string CMD_PREFIX `prefix_of` text_of chunk ->
  current_mode s = MODE_TX ->
  0 < Z.of_nat (length chunk) <= MAX_FRAME_SIZE + 1 ->
  uart_receive_task esp_ok pending tx_frame0 s
    = Done tt (set_radio_log
                 (radio_log s ++
                  [esp_ieee802154_transmit (chunk ++ drop (length chunk) tx_frame0) false])
                 s).
Proof.
  intros chunk Hnp Hm Hlen. unfold uart_receive_task. fold chunk.
  destruct (0 <? Z.of_nat (length chunk)) eqn:Hpos; [|apply Z.ltb_ge in Hpos; lia].
  destruct (strncmp_eq _ _ _) eqn:Hcmd; [by apply is_command_spec in Hcmd|].
  run_monad. rewrite Hm. destruct (decide (MODE_TX = MODE_TX)); [|done].
  unfold memcpy. rewrite length_app. simpl.
  destruct (_ && _) eqn:Hb.
  - rewrite Nat2Z.id, take_app_length. done.
  - apply andb_false_iff in Hb as [Hb|Hb]; apply Z.leb_gt in Hb; lia.
Qed.

(** X15.  A longer chunk is copied whole all the same: for every chunk of
    more than 128 bytes that is not a command, read in transmit mode,
    [memcpy] is asked for [len] bytes, beyond the 128 of [tx_frame]. *)
Lemma raw_frame_past_tx_frame (esp_ok : list radio_call -> radio_call -> bool)
    (pending tx_frame0 : list byte) (s : firmware) :
  let chunk := uart_read_bytes pending (BUF_SIZE - 1) in
  ~ list_ascii_of_string CMD_PREFIX `prefix_of` text_of chunk ->
  current_mode s = MODE_TX ->
  MAX_FRAME_SIZE + 1 < Z.of_nat (length chunk) ->
  uart_receive_task esp_ok pending tx_frame0 s = Fault.
Proof.
  intros chunk Hnp Hm Hlen. unfold uart_receive_task. fold chunk.
  destruct (0 <? Z.of_nat (length chunk)) eqn:Hpos;
    [|apply Z.ltb_ge in Hpos; unfold MAX_FRAME_SIZE in *; lia].
  destruct (strncmp_eq _ _ _) eqn:Hcmd; [by apply is_command_spec in Hcmd|].
  run_monad. rewrite Hm. destruct (decide (MODE_TX = MODE_TX)); [|done].
  unfold memcpy.
  destruct (Z.of_nat (length chunk) <=? MAX_FRAME_SIZE + 1) eqn:Hb; [|done].
  apply Z.leb_le in Hb. lia.
Qed.

(** C2, the code at a chunk of 200 bytes in transmit mode: the chunk is not
    truncated to 128 bytes; all 200 bytes are passed to [memcpy], whose
    destination [tx_frame] has 128. *)
Lemma raw_frame_is_not_truncated :
  current_mode boot_state = MODE_TX /\
  Z.of_nat (length (uart_read_bytes oversized_chunk (BUF_SIZE - 1))) = 200 /\
  memcpy (MAX_FRAME_SIZE + 1) (replicate 128 x00) (oversized_chunk ++ [x00]) 200 = None /\
  uart_receive_task all_ok oversized_chunk (replicate 128 x00) boot_state = Fault.
Proof. repeat split; vm_compute; reflexivity. Qed.

(** * Further properties *)

(** ** Flash start-up *)

(** X1.  [initialize_nvs] erases the flash partition exactly when the first
    [nvs_flash_init] reports no free pages or a new version, makes at most
    three flash calls, returns only after an [nvs_flash_init] that returned
    [ESP_OK], and aborts right after a call that did not return [ESP_OK]. *)
Theorem initialize_nvs_outcome (nvs : list nvs_call -> nvs_call -> esp_err_t) :
  (nvs_flash_erase ∈ nvs_calls (initialize_nvs nvs) <->
     nvs [] nvs_flash_init = ESP_ERR_NVS_NO_FREE_PAGES \/
     nvs [] nvs_flash_init = ESP_ERR_NVS_NEW_VERSION_FOUND) /\
  (length (nvs_calls (initialize_nvs nvs)) <= 3)%nat /\
  (forall calls, initialize_nvs nvs = nvs_returned calls ->
     exists before, calls = before ++ [nvs_flash_init] /\
                    nvs before nvs_flash_init = ESP_OK) /\
  (forall calls, initialize_nvs nvs = nvs_aborted calls ->
     exists before c, calls = before ++ [c] /\ nvs before c <> ESP_OK).
Proof.
  unfold initialize_nvs.
  repeat case_bool_decide; simpl; split_and!; try lia;
    try (intros calls Hc; simplify_eq);
    try first
      [ by exists [nvs_flash_init; nvs_flash_erase]
      | by exists []
      | by exists [nvs_flash_init; nvs_flash_erase], nvs_flash_init
      | by exists [nvs_flash_init], nvs_flash_erase
      | by exists [], nvs_flash_init ].
  all: split;
    first [ by intros _
          | by intros _; repeat constructor
          | intros Hin; apply list_elem_of_singleton in Hin; discriminate
          | done ].
Qed.

(** ** Driver calls that fail *)

Lemma rejected_at_spec (esp_ok : list radio_call -> radio_call -> bool)
    (calls history : list radio_call) (k : nat) :
  rejected_at esp_ok history calls = Some k ->
  exists c, calls !! k = Some c /\
            esp_ok (history ++ take k calls) c = false /\
            accepts esp_ok history (take k calls) = true.
Proof.
  revert history k. induction calls as [|c calls IH]; intros history k H; [done|].
  simpl in H. destruct (esp_ok history c) eqn:Hc.
  - destruct (rejected_at esp_ok (history ++ [c]) calls) as [j|] eqn:Hj; [|done].
    simpl in H. simplify_eq.
    destruct (IH _ _ Hj) as (c' & Hl & Hrej & Hacc).
    exists c'. simpl. rewrite Hc, Hacc. split_and!; try done.
    by rewrite <- app_assoc in Hrej.
  - simplify_eq. exists c. simpl. by rewrite app_nil_r.
Qed.

Lemma rejected_at_none (esp_ok : list radio_call -> radio_call -> bool)
    (calls history : list radio_call) :
  rejected_at esp_ok history calls = None <-> accepts esp_ok history calls = true.
Proof.
  revert history. induction calls as [|c calls IH]; intros history; [done|].
  simpl. destruct (esp_ok history c); simpl; [|done].
  rewrite <- IH. by destruct (rejected_at esp_ok (history ++ [c]) calls).
Qed.

Lemma switch_mode_outcome (esp_ok : list radio_call -> radio_call -> bool)
    (new_mode : operation_mode_t) (s : firmware) :
  current_mode s <> new_mode ->
  switch_mode esp_ok new_mode s
    = match rejected_at esp_ok (radio_log s) (reconfiguration new_mode) with
      | None => Done tt (mode_switched new_mode s)
      | Some k =>
          Aborted (set_radio_log
                     (radio_log s ++ take (S k) (reconfiguration new_mode))
                     (set_current_mode new_mode s))
      end.
Proof.
  intros Hm. unfold switch_mode. run_monad.
  destruct (decide (current_mode s = new_mode)); [done|].
  destruct new_mode; simpl;
    repeat (match goal with |- context [esp_ok ?h ?c] =>
              destruct (esp_ok h c) end; simpl);
    unfold mode_switched, set_radio_log; simpl;
    rewrite <- ?app_assoc; reflexivity.
Qed.

(** X2.  When a driver call of a mode switch fails, [switch_mode] aborts at
    that call: the calls before it were made and accepted, none after it is
    made, the mode variable already holds the new mode, and the "mode
    activated" line is not logged. *)
Theorem switch_mode_stops_at_rejected_call
    (esp_ok : list radio_call -> radio_call -> bool)
    (new_mode : operation_mode_t) (s : firmware) (k : nat) :
  current_mode s <> new_mode ->
  rejected_at esp_ok (radio_log s) (reconfiguration new_mode) = Some k ->
  exists s' c,
    switch_mode esp_ok new_mode s = Aborted s' /\
    reconfiguration new_mode !! k = Some c /\
    esp_ok (radio_log s ++ take k (reconfiguration new_mode)) c = false /\
    accepts esp_ok (radio_log s) (take k (reconfiguration new_mode)) = true /\
    issued s s' = take k (reconfiguration new_mode) ++ [c] /\
    current_mode s' = new_mode /\
    esp_log s' = esp_log s.
Proof.
  intros Hm Hk.
  destruct (rejected_at_spec _ _ _ _ Hk) as (c & Hl & Hrej & Hacc).
  rewrite switch_mode_outcome, Hk by done.
  eexists _, c. split_and!; try done.
  rewrite (issued_app _ _ (take (S k) (reconfiguration new_mode))) by done.
  by apply take_S_r.
Qed.

Lemma switch_mode_stops_at_rejected_call_witness :
  exists s' c,
    switch_mode rejects_panid MODE_SNIFF boot_state = Aborted s' /\
    reconfiguration MODE_SNIFF !! 1%nat = Some c /\
    rejects_panid (radio_log boot_state ++ take 1 (reconfiguration MODE_SNIFF)) c = false /\
    accepts rejects_panid (radio_log boot_state) (take 1 (reconfiguration MODE_SNIFF)) = true /\
    issued boot_state s' = take 1 (reconfiguration MODE_SNIFF) ++ [c] /\
    current_mode s' = MODE_SNIFF /\
    esp_log s' = esp_log boot_state.
Proof.
  apply (switch_mode_stops_at_rejected_call rejects_panid MODE_SNIFF boot_state 1).
  - discriminate.
  - reflexivity.
Defined.

Lemma app_main_outcome (esp_ok : list radio_call -> radio_call -> bool) :
  app_main esp_ok boot_state
    = match rejected_at esp_ok [] startup_calls with
      | None =>
          Done tt (logged (log_initialised UART_BAUD_RATE CHANNEL QUEUE_SIZE)
                     (set_tasks startup_tasks
                        (mode_switched MODE_SNIFF
                           (set_radio_log
                              [esp_ieee802154_enable;
                               esp_ieee802154_set_channel CHANNEL]
                              boot_state))))
      | Some k =>
          Aborted (set_radio_log (take (S k) startup_calls)
                     (if (k <? 2)%nat then boot_state
                      else set_current_mode MODE_SNIFF boot_state))
      end.
Proof.
  unfold app_main, switch_mode. run_monad. simpl.
  repeat (match goal with |- context [esp_ok ?h ?c] =>
            destruct (esp_ok h c) end; simpl);
    reflexivity.
Qed.

(** X3.  When a driver call of [app_main] fails, start-up aborts at that
    call: no later call is made, nothing is logged, and the mode variable
    is still [MODE_TX] if the radio could not be enabled or tuned, already
    [MODE_SNIFF] if the failure is in the capture reconfiguration. *)
Theorem app_main_stops_at_rejected_call
    (esp_ok : list radio_call -> radio_call -> bool) (k : nat) :
  rejected_at esp_ok [] startup_calls = Some k ->
  exists s' c,
    app_main esp_ok boot_state = Aborted s' /\
    startup_calls !! k = Some c /\
    esp_ok (take k startup_calls) c = false /\
    accepts esp_ok [] (take k startup_calls) = true /\
    radio_log s' = take k startup_calls ++ [c] /\
    esp_log s' = [] /\
    current_mode s' = (if (k <? 2)%nat then MODE_TX else MODE_SNIFF).
Proof.
  intros Hk.
  destruct (rejected_at_spec _ _ _ _ Hk) as (c & Hl & Hrej & Hacc).
  rewrite app_main_outcome, Hk.
  eexists _, c. split_and!; try done.
  - cbn [radio_log set_radio_log]. by apply take_S_r.
  - by destruct (k <? 2)%nat.
  - by destruct (k <? 2)%nat.
Qed.

Lemma app_main_stops_at_rejected_call_witness :
  exists s' c,
    app_main rejects_panid boot_state = Aborted s' /\
    startup_calls !! 3%nat = Some c /\
    rejects_panid (take 3 startup_calls) c = false /\
    accepts rejects_panid [] (take 3 startup_calls) = true /\
    radio_log s' = take 3 startup_calls ++ [c] /\
    esp_log s' = [] /\
    current_mode s' = (if (3 <? 2)%nat then MODE_TX else MODE_SNIFF).
Proof.
  apply (app_main_stops_at_rejected_call rejects_panid 3). reflexivity.
Defined.

(** ** When the callback stays inside the record *)

Lemma packet_len_of_cases (frame0 : byte) :
  (byte_val frame0 = 255 /\ packet_len_of frame0 = 0) \/
  (byte_val frame0 <= 254 /\ packet_len_of frame0 = byte_val frame0 + 1).
Proof.
  pose proof (byte_val_range frame0) as Hr. unfold packet_len_of, to_uint8.
  destruct (decide (byte_val frame0 = 255)) as [->|Hne]; [by left|].
  right. split; [lia|]. apply Z.mod_small. lia.
Qed.

Lemma receive_done_defined (frame : list byte) (frame0 : byte) (frame_rssi : Z)
    (stale : rx_packet_t) (s : firmware) (copied : list byte) :
  current_mode s = MODE_SNIFF ->
  frame !! 0%nat = Some frame0 ->
  memcpy (MAX_FRAME_SIZE + 1) (data stale) frame (packet_len_of frame0) = Some copied ->
  exists s', esp_ieee802154_receive_done frame frame_rssi (Some stale) s = Done tt s'.
Proof.
  intros Hm H0 Hcpy. unfold packet_len_of in Hcpy.
  unfold esp_ieee802154_receive_done. run_monad.
  destruct (decide (current_mode s ≠ MODE_SNIFF)); [done|].
  simpl. rewrite !lookup_insert_eq, H0. simpl. rewrite Hcpy. simpl.
  rewrite lookup_insert_eq. simpl.
  destruct (Z.of_nat (length (rx_queue s)) <? QUEUE_SIZE); simpl.
  - by eexists.
  - rewrite lookup_insert_eq. simpl. by eexists.
Qed.

Lemma receive_done_undefined (frame : list byte) (frame_rssi : Z)
    (stale : rx_packet_t) (s : firmware) :
  current_mode s = MODE_SNIFF ->
  match frame !! 0%nat with
  | None => True
  | Some frame0 =>
      memcpy (MAX_FRAME_SIZE + 1) (data stale) frame (packet_len_of frame0) = None
  end ->
  esp_ieee802154_receive_done frame frame_rssi (Some stale) s = Fault.
Proof.
  intros Hm H0.
  unfold esp_ieee802154_receive_done. run_monad.
  destruct (decide (current_mode s ≠ MODE_SNIFF)); [done|].
  simpl. rewrite !lookup_insert_eq.
  destruct (frame !! 0%nat) as [frame0|]; [|done].
  unfold packet_len_of in H0. simpl. by rewrite H0.
Qed.

(** X4.  In capture mode with a record allocated, the callback reads or
    writes outside an object exactly when the driver buffer is empty, or
    the leading byte is between 128 and 254 (more than the 128 bytes of
    [data] are copied), or the buffer is shorter than the length stored;
    a leading byte of 255 wraps to a stored length of 0.  In every other
    case it returns. *)
Theorem receive_done_fault_iff (frame : list byte) (frame_rssi : Z)
    (stale : rx_packet_t) (s : firmware) :
  current_mode s = MODE_SNIFF ->
  let outside :=
    match frame !! 0%nat with
    | None => True
    | Some frame0 =>
        128 <= byte_val frame0 <= 254 \/
        Z.of_nat (length frame) < packet_len_of frame0
    end in
  (esp_ieee802154_receive_done frame frame_rssi (Some stale) s = Fault <-> outside) /\
  (~ outside ->
     exists s', esp_ieee802154_receive_done frame frame_rssi (Some stale) s = Done tt s') /\
  (forall frame0, byte_val frame0 = 255 -> packet_len_of frame0 = 0).
Proof.
  intros Hm outside.
  assert (Hcases : outside \/
            exists frame0 copied,
              frame !! 0%nat = Some frame0 /\ ~ outside /\
              memcpy (MAX_FRAME_SIZE + 1) (data stale) frame (packet_len_of frame0)
                = Some copied).
  { subst outside. destruct (frame !! 0%nat) as [frame0|] eqn:H0; [|by left].
    unfold memcpy, MAX_FRAME_SIZE.
    destruct (packet_len_of_cases frame0) as [[Hb Hl]|[Hb Hl]]; rewrite Hl.
    - right. eexists frame0, _. split_and!; [done | lia | ].
      destruct (_ && _) eqn:Hc; [done|].
      apply andb_false_iff in Hc as [Hc|Hc]; apply Z.leb_gt in Hc; lia.
    - destruct (decide (128 <= byte_val frame0)); [left; lia|].
      destruct (decide (Z.of_nat (length frame) < byte_val frame0 + 1));
        [left; lia|].
      right. eexists frame0, _. split_and!; [done | lia | ].
      destruct (_ && _) eqn:Hc; [done|].
      apply andb_false_iff in Hc as [Hc|Hc]; apply Z.leb_gt in Hc; lia. }
  split_and!.
  - split.
    + intros Hf. destruct Hcases as [Ho|(frame0 & copied & H0 & _ & Hcpy)]; [done|].
      destruct (receive_done_defined frame frame0 frame_rssi stale s copied Hm H0 Hcpy)
        as [s' Hs].
      congruence.
    + intros Ho. apply receive_done_undefined; [done|].
      subst outside. destruct (frame !! 0%nat) as [frame0|]; [|done].
      unfold memcpy, MAX_FRAME_SIZE.
      destruct (packet_len_of_cases frame0) as [[Hb Hl]|[Hb Hl]]; rewrite Hl in *.
      * lia.
      * destruct (_ && _) eqn:Hc; [|done].
        apply andb_true_iff in Hc as [Hc1 Hc2].
        apply Z.leb_le in Hc1, Hc2. lia.
  - intros Hno. destruct Hcases as [Ho|(frame0 & copied & H0 & _ & Hcpy)]; [done|].
    by eapply receive_done_defined.
  - intros frame0 Hb. destruct (packet_len_of_cases frame0) as [[_ Hl]|[Hle _]]; [done|lia].
Qed.

Lemma receive_done_fault_iff_witness :
  (esp_ieee802154_receive_done long_frame (-40) (Some zero_block) sniff_state = Fault <->
     match long_frame !! 0%nat with
     | None => True
     | Some frame0 =>
         128 <= byte_val frame0 <= 254 \/
         Z.of_nat (length long_frame) < packet_len_of frame0
     end) /\
  (~ match long_frame !! 0%nat with
     | None => True
     | Some frame0 =>
         128 <= byte_val frame0 <= 254 \/
         Z.of_nat (length long_frame) < packet_len_of frame0
     end ->
     exists s',
       esp_ieee802154_receive_done long_frame (-40) (Some zero_block) sniff_state
         = Done tt s') /\
  (forall frame0, byte_val frame0 = 255 -> packet_len_of frame0 = 0).
Proof.
  apply (receive_done_fault_iff long_frame (-40) zero_block sniff_state).
  reflexivity.
Defined.

(** ** From a frame to its line *)

Lemma uart_send_packet_held (tick : Z) (s : firmware) (p : nat) (packet : rx_packet_t) :
  relay_packet s = Some p ->
  heap s !! p = Some packet ->
  wf_packet packet ->
  Z.of_nat (length (output_buffer s)) = OUTPUT_BUFFER_SIZE ->
  exists buf',
    Z.of_nat (length buf') = OUTPUT_BUFFER_SIZE /\
    uart_send_packet tick s
      = Done tt
          (set_relay_packet None
             (set_heap (delete p (heap s))
                (set_uart_tx
                   (uart_tx s ++ [relay_line (to_uint32 tick mod 1000000) packet])
                   (set_output_buffer buf' s)))).
Proof.
  intros Hheld Hp Hwf Hbuf.
  destruct (render_wf (output_buffer s) tick packet Hbuf Hwf) as (buf' & Hr & Hbuf').
  exists buf'. split; [done|].
  unfold uart_send_packet. run_monad.
  rewrite Hheld, Hp, Hr. simpl. by rewrite Hp.
Qed.

Lemma captured_payload (frame : list byte) (frame0 : byte) (frame_rssi : Z)
    (stale : rx_packet_t) :
  byte_val frame0 <= MAX_FRAME_SIZE ->
  byte_val frame0 + 1 <= Z.of_nat (length frame) ->
  payload (captured frame frame0 frame_rssi stale)
    = take (Z.to_nat (byte_val frame0)) (drop 1 frame).
Proof.
  intros Hphy Hlen. pose proof (byte_val_range frame0) as Hr.
  unfold payload, captured. simpl. rewrite packet_len_of_small by done.
  replace (Z.to_nat (byte_val frame0 + 1 - 1)) with (Z.to_nat (byte_val frame0)) by lia.
  replace (Z.to_nat (byte_val frame0 + 1)) with (S (Z.to_nat (byte_val frame0))) by lia.
  set (n := Z.to_nat (byte_val frame0)).
  rewrite drop_app_le by (rewrite length_take; lia).
  rewrite take_app_le by (rewrite length_drop, length_take; lia).
  rewrite !take_drop_commute, take_take. f_equal. f_equal. lia.
Qed.


Lemma queued_state_inv : fw_inv queued_state.
Proof.
  unfold fw_inv, queued_state, owned. simpl. split_and!.
  - unfold QUEUE_SIZE. lia.
  - apply NoDup_singleton.
  - rewrite dom_singleton_L. by rewrite union_empty_r_L.
  - apply map_Forall_singleton. exact test_packet_wf.
  - reflexivity.
Qed.

Lemma uart_send_task_writes_line_witness :
  exists s',
    uart_send_task 12345 queued_state = Done tt s' /\
    uart_tx s'
      = uart_tx queued_state ++ [relay_line (to_uint32 12345 mod 1000000) test_packet] /\
    rx_queue s' = [] /\
    heap s' = delete 0%nat (heap queued_state) /\
    relay_packet s' = None.
Proof.
  apply (uart_send_task_writes_line 12345 queued_state 0%nat [] test_packet).
  - exact queued_state_inv.
  - reflexivity.
  - reflexivity.
  - reflexivity.
Defined.

(** ** Every frame is accounted for *)

Lemma to_uint32_add_l (a b : Z) : to_uint32 (to_uint32 a + b) = to_uint32 (a + b).
Proof. unfold to_uint32. by rewrite Z.add_mod_idemp_l. Qed.

Lemma step_accounts (e : event) (s : firmware) :
  fw_inv s -> wf_event e ->
  exists s',
    step e s = Done tt s' /\ fw_inv s' /\
    current_mode s' = current_mode s /\
    to_uint32 (accounted s')
      = to_uint32 (accounted s +
                   (if is_frame e && bool_decide (current_mode s = MODE_SNIFF)
                    then 1 else 0)).
Proof.
  intros Hinv He.
  assert (exists s', step e s = Done tt s' /\ fw_inv s') as (s' & Hs & Hinv').
  { destruct e; simpl.
    - destruct He. by apply receive_done_inv.
    - by apply xQueueReceive_inv.
    - by apply uart_send_packet_inv. }
  exists s'. split_and!; try done.
  - destruct e; simpl in Hs.
    + by eapply receive_done_keeps_mode.
    + by eapply xQueueReceive_keeps_mode.
    + by eapply uart_send_packet_keeps_mode.
  - destruct Hinv as (Hocc & Hnd & Hdom & Hwf & Hbuf).
    destruct e as [frame frame_rssi block| |tick]; simpl in *.
    + destruct He as [(frame0 & H0 & Hphy & Hlen) Hblock].
      case_bool_decide as Hm.
      2: { rewrite receive_done_gated in Hs by done. simplify_eq.
           by rewrite Z.add_0_r. }
      destruct block as [stale|].
      2: { rewrite receive_done_no_memory in Hs by done. simplify_eq.
           unfold accounted, owned. simpl. rewrite <- !Z.add_assoc, to_uint32_add_l.
           f_equal. lia. }
      destruct (decide (Z.of_nat (length (rx_queue s)) < QUEUE_SIZE)).
      * rewrite (receive_done_enqueued _ frame0) in Hs by done. simplify_eq.
        unfold accounted, owned. simpl. rewrite !length_app. simpl.
        f_equal. lia.
      * rewrite (receive_done_queue_full _ frame0) in Hs by (try done; lia).
        simplify_eq.
        unfold accounted, owned. simpl. rewrite <- !Z.add_assoc, to_uint32_add_l.
        f_equal. lia.
    + rewrite Z.add_0_r. unfold xQueueReceive in Hs.
      destruct (relay_packet s) as [held|] eqn:Hheld; [by simplify_eq|].
      destruct (rx_queue s) as [|p queue] eqn:Hq; [by simplify_eq|].
      simplify_eq. unfold accounted, owned. simpl. by rewrite Hheld, Hq.
    + rewrite Z.add_0_r.
      destruct (relay_packet s) as [p|] eqn:Hheld.
      2: { unfold uart_send_packet in Hs. run_monad. rewrite Hheld in Hs.
           by simplify_eq. }
      assert (Hp : p ∈ dom (heap s)).
      { rewrite Hdom. unfold owned. rewrite Hheld. simpl.
        rewrite elem_of_union, elem_of_singleton. by left. }
      apply elem_of_dom in Hp as [packet Hp].
      destruct (uart_send_packet_held tick s p packet Hheld Hp (Hwf p packet Hp) Hbuf)
        as (buf' & _ & Hsend).
      rewrite Hsend in Hs. simplify_eq.
      unfold accounted, owned. simpl. rewrite Hheld, length_app. simpl.
      f_equal. lia.
Qed.

Lemma frames_in_cons (e : event) (evs : list event) :
  frames_in (e :: evs) = (if is_frame e then 1 else 0) + frames_in evs.
Proof.
  unfold frames_in. rewrite filter_cons.
  destruct (decide (is_frame e = true)) as [->|Hn]; simpl.
  - lia.
  - apply not_true_is_false in Hn. by rewrite Hn.
Qed.

(** X7.  Over any run of callback invocations and relay steps no frame is
    lost from the books: the drop counter plus the records held by the
    queue and the relay task plus the lines written to the serial port
    grows, modulo 2^32, by exactly the number of frames that arrived in
    capture mode, and stays as it was outside capture mode. *)
Theorem frames_accounted_for (evs : list event) (s : firmware) :
  fw_inv s -> Forall wf_event evs ->
  exists s',
    run evs s = Done tt s' /\
    to_uint32 (accounted s')
      = to_uint32 (accounted s +
                   (if decide (current_mode s = MODE_SNIFF) then frames_in evs else 0)).
Proof.
  intros Hinv Hevs. revert s Hinv.
  induction Hevs as [|e evs He _ IH]; intros s Hinv.
  - exists s. split; [done|]. destruct (decide _); by rewrite Z.add_0_r.
  - destruct (step_accounts e s Hinv He) as (s1 & Hs & Hinv1 & Hmode & Hacc).
    destruct (IH s1 Hinv1) as (s' & Hrun & Hacc').
    exists s'. split; [simpl; unfold bind; by rewrite Hs|].
    rewrite Hacc', Hmode, frames_in_cons.
    rewrite <- to_uint32_add_l, Hacc, to_uint32_add_l.
    f_equal. destruct (decide (current_mode s = MODE_SNIFF)) as [Hm|Hm].
    + rewrite bool_decide_eq_true_2 by done. destruct (is_frame e); simpl; lia.
    + rewrite bool_decide_eq_false_2 by done. rewrite andb_false_r. lia.
Qed.

Lemma frames_accounted_for_witness :
  exists s',
    run [ev_frame short_frame (-40) (Some zero_block); ev_relay_receive;
         ev_frame short_frame (-41) None; ev_relay_send 7] sniff_state
      = Done tt s' /\
    to_uint32 (accounted s')
      = to_uint32 (accounted sniff_state +
                   (if decide (current_mode sniff_state = MODE_SNIFF)
                    then frames_in [ev_frame short_frame (-40) (Some zero_block);
                                    ev_relay_receive;
                                    ev_frame short_frame (-41) None;
                                    ev_relay_send 7]
                    else 0)).
Proof.
  apply (frames_accounted_for
           [ev_frame short_frame (-40) (Some zero_block); ev_relay_receive;
            ev_frame short_frame (-41) None; ev_relay_send 7] sniff_state).
  - exact sniff_state_inv.
  - repeat constructor; try exact short_frame_fits; reflexivity.
Defined.

(** ** Reading the line back *)

Lemma digit_val_digit_char (d : Z) :
  0 <= d <= 9 -> digit_val (digit_char d) = Some d.
Proof.
  intros Hd.
  assert (Hc : d = 0 \/ d = 1 \/ d = 2 \/ d = 3 \/ d = 4 \/
               d = 5 \/ d = 6 \/ d = 7 \/ d = 8 \/ d = 9) by lia.
  repeat (destruct Hc as [->|Hc]; [reflexivity|]). by subst.
Qed.

Lemma digit_char_not_space (d : Z) :
  0 <= d <= 9 -> Ascii.eqb (digit_char d) " "%char = false /\
                 Ascii.eqb (digit_char d) "-"%char = false.
Proof.
  intros Hd.
  assert (Hc : d = 0 \/ d = 1 \/ d = 2 \/ d = 3 \/ d = 4 \/
               d = 5 \/ d = 6 \/ d = 7 \/ d = 8 \/ d = 9) by lia.
  repeat (destruct Hc as [->|Hc]; [by split|]). by subst.
Qed.

Lemma digits_rev_range (fuel : nat) (n : Z) :
  0 <= n -> Forall (fun d => 0 <= d <= 9) (digits_rev 10 fuel n).
Proof.
  revert n. induction fuel as [|fuel IH]; intros n Hn; simpl; [constructor|].
  constructor.
  - pose proof (Z.mod_pos_bound n 10). lia.
  - destruct (n / 10 =? 0); [constructor|]. apply IH. apply Z.div_pos; lia.
Qed.

Lemma le_val_digits_rev (fuel : nat) (n : Z) :
  0 <= n < 2 ^ Z.of_nat fuel -> le_val (digits_rev 10 fuel n) = n.
Proof.
  revert n. induction fuel as [|fuel IH]; intros n Hn.
  - simpl in *. lia.
  - cbn [digits_rev]. pose proof (Z.div_mod n 10 ltac:(lia)) as Hdm.
    destruct (n / 10 =? 0) eqn:Hq.
    + apply Z.eqb_eq in Hq. simpl. lia.
    + cbn [le_val]. rewrite IH; [lia|].
      split; [apply Z.div_pos; lia|].
      apply Z.div_lt_upper_bound; [lia|].
      rewrite Nat2Z.inj_succ, Z.pow_succ_r in Hn by lia. lia.
Qed.

Lemma enough_fuel_enough (n : Z) : 0 <= n -> n < 2 ^ Z.of_nat (enough_fuel n).
Proof.
  intros Hn. unfold enough_fuel.
  destruct (decide (n = 0)) as [->|Hne]; [reflexivity|].
  pose proof (Z.log2_nonneg n). pose proof (Z.log2_spec n ltac:(lia)) as [_ Hs].
  rewrite Nat2Z.inj_succ, Z2Nat.id by done. exact Hs.
Qed.

Lemma parse_dec_aux_snoc (s : list ascii) (d acc : Z) :
  0 <= d <= 9 ->
  parse_dec_aux acc (s ++ [digit_char d])
    = option_map (fun v => 10 * v + d) (parse_dec_aux acc s).
Proof.
  intros Hd. revert acc. induction s as [|c s IH]; intros acc; simpl.
  - by rewrite digit_val_digit_char.
  - destruct (digit_val c); [apply IH | done].
Qed.

Lemma parse_dec_digits (digits : list Z) :
  Forall (fun d => 0 <= d <= 9) digits ->
  parse_dec_aux 0 (map digit_char (rev digits)) = Some (le_val digits).
Proof.
  induction 1 as [|d digits Hd _ IH]; [done|].
  simpl. rewrite map_app. simpl. rewrite parse_dec_aux_snoc, IH by done.
  simpl. f_equal. lia.
Qed.

Lemma parse_dec_utoa (n : Z) : 0 <= n -> parse_dec_aux 0 (utoa 10 n) = Some n.
Proof.
  intros Hn. unfold utoa.
  rewrite parse_dec_digits by (by apply digits_rev_range).
  f_equal. apply le_val_digits_rev. split; [done | by apply enough_fuel_enough].
Qed.

(** The decimal text of a number starts with a digit. *)
Lemma utoa_head (n : Z) :
  0 <= n -> exists d rest, utoa 10 n = digit_char d :: rest /\ 0 <= d <= 9.
Proof.
  intros Hn. unfold utoa, enough_fuel.
  pose proof (digits_rev_range (S (Z.to_nat (Z.log2 n))) n Hn) as Hr.
  apply Forall_rev in Hr.
  destruct (rev (digits_rev 10 (S (Z.to_nat (Z.log2 n))) n)) as [|d rest] eqn:Hrev.
  - apply (f_equal length) in Hrev. rewrite length_rev in Hrev. done.
  - apply Forall_cons in Hr as [Hd _]. by exists d, (map digit_char rest).
Qed.

Lemma skip_spaces_pad (k : nat) (c : ascii) (s : list ascii) :
  Ascii.eqb c " "%char = false ->
  skip_spaces (repeat " "%char k ++ c :: s) = c :: s.
Proof.
  intros Hc. induction k as [|k IH]; simpl; [by rewrite Hc | done].
Qed.

Lemma parse_field_unsigned (width n : Z) :
  0 <= n -> parse_field (pad_left width " "%char (utoa 10 n)) = Some n.
Proof.
  intros Hn. pose proof (parse_dec_utoa n Hn) as Hp.
  destruct (utoa_head n Hn) as (d & rest & Hu & Hd).
  destruct (digit_char_not_space d Hd) as [Hsp _].
  unfold parse_field, pad_left. rewrite Hu in *.
  by rewrite skip_spaces_pad.
Qed.

Lemma parse_signed_itoa (width n : Z) :
  parse_signed (pad_left width " "%char (itoa n)) = Some n.
Proof.
  unfold parse_signed, pad_left, itoa. destruct (n <? 0) eqn:Hneg.
  - apply Z.ltb_lt in Hneg.
    rewrite skip_spaces_pad by done. simpl.
    destruct (utoa_head (- n) ltac:(lia)) as (d & rest & Hu & Hd).
    pose proof (parse_dec_utoa (- n) ltac:(lia)) as Hp. rewrite Hu in *.
    rewrite Hp. simpl. f_equal. lia.
  - apply Z.ltb_ge in Hneg.
    destruct (utoa_head n Hneg) as (d & rest & Hu & Hd).
    destruct (digit_char_not_space d Hd) as [Hsp Hminus].
    pose proof (parse_dec_utoa n Hneg) as Hp. rewrite Hu in *.
    rewrite skip_spaces_pad by done. by rewrite Hminus.
Qed.

Lemma fmt_02X_reads_back (b : byte) :
  exists hi lo h l,
    fmt_02X (byte_val b) = [hi; lo] /\
    hex_digit_val hi = Some h /\ hex_digit_val lo = Some l /\
    byte_of_Z (16 * h + l) = b.
Proof.
  destruct b; eexists _, _, _, _;
    (split; [vm_compute; reflexivity|]);
    (split; [vm_compute; reflexivity|]);
    (split; [vm_compute; reflexivity|]);
    vm_compute; reflexivity.
Qed.

Lemma parse_hex_hex_of (bytes : list byte) : parse_hex (hex_of bytes) = Some bytes.
Proof.
  unfold hex_of. induction bytes as [|b bytes IH]; [done|].
  destruct (fmt_02X_reads_back b) as (hi & lo & h & l & Hf & Hh & Hl & Hb).
  cbn [map concat]. rewrite Hf. cbn [app parse_hex].
  by rewrite Hh, Hl, IH, Hb.
Qed.

Lemma expect_app (literal rest : list ascii) :
  expect literal (literal ++ rest) = Some rest.
Proof.
  unfold expect.
  assert (H : starts_with literal (literal ++ rest) = true)
    by (apply starts_with_spec; by exists rest).
  by rewrite H, drop_app_length.
Qed.

(** X8.  The relay line loses nothing: for a record with at least the
    length byte, reading the line back by its fixed columns gives the
    sequence value, the signal strength and exactly the payload bytes, and
    the count field agrees with the number of bytes in the hexadecimal
    section. *)
Theorem relay_line_reads_back (seq : Z) (packet : rx_packet_t) :
  0 <= seq < 1000000 ->
  wf_packet packet ->
  1 <= len packet ->
  decode_line (relay_line seq packet) = Some (seq, rssi packet, payload packet).
Proof.
  intros Hseq (Hdata & Hlen & Hrssi) Hone.
  assert (Hcap : MAX_FRAME_SIZE + 1 = 128) by reflexivity.
  pose proof (payload_length packet ltac:(lia)) as Hpay.
  assert (H6 : parse_field (fmt_6lu seq) = Some seq)
    by (apply parse_field_unsigned; lia).
  assert (H4 : parse_signed (fmt_4d (rssi packet)) = Some (rssi packet))
    by apply parse_signed_itoa.
  assert (H3 : parse_field (fmt_3d (len packet - 1)) = Some (len packet - 1)).
  { unfold fmt_3d, itoa.
    destruct (len packet - 1 <? 0) eqn:Hneg; [apply Z.ltb_lt in Hneg; lia|].
    apply parse_field_unsigned. lia. }
  unfold relay_line, fmt_header, decode_line.
  rewrite <- !app_assoc.
  rewrite expect_app. cbn [mbind option_bind].
  rewrite take_app_length' by (symmetry; apply fmt_6lu_length; lia).
  rewrite H6. cbn [mbind option_bind].
  rewrite drop_app_length' by (symmetry; apply fmt_6lu_length; lia).
  rewrite expect_app. cbn [mbind option_bind].
  rewrite take_app_length' by (symmetry; apply fmt_4d_length; lia).
  rewrite H4. cbn [mbind option_bind].
  rewrite drop_app_length' by (symmetry; apply fmt_4d_length; lia).
  rewrite expect_app. cbn [mbind option_bind].
  rewrite take_app_length' by (symmetry; apply fmt_3d_length; lia).
  rewrite H3. cbn [mbind option_bind].
  rewrite drop_app_length' by (symmetry; apply fmt_3d_length; lia).
  rewrite expect_app. cbn [mbind option_bind].
  assert (Hn : (length (hex_of (payload packet) ++ [CR; LF]) - 2)%nat
               = length (hex_of (payload packet))).
  { rewrite length_app. simpl. lia. }
  rewrite Hn, take_app_length, drop_app_length, parse_hex_hex_of.
  cbn [mbind option_bind].
  rewrite bool_decide_eq_true_2; [done|]. split; [done | lia].
Qed.

Lemma relay_line_reads_back_witness :
  decode_line (relay_line 12345 test_packet)
    = Some (12345, rssi test_packet, payload test_packet).
Proof.
  apply (relay_line_reads_back 12345 test_packet).
  - lia.
  - exact test_packet_wf.
  - simpl. lia.
Defined.

(** X9.  Every relay line has a header of exactly 26 characters, whatever
    the sequence value, signal strength and count, then two characters per
    payload byte and the two-character terminator: 28 + 2 (len - 1)
    characters for a record with at least the length byte. *)
Theorem relay_line_length (seq : Z) (packet : rx_packet_t) :
  0 <= seq < 1000000 ->
  wf_packet packet ->
  1 <= len packet ->
  length (fmt_header seq (rssi packet) (len packet - 1)) = 26%nat /\
  take 26 (relay_line seq packet) = fmt_header seq (rssi packet) (len packet - 1) /\
  Z.of_nat (length (relay_line seq packet)) = 28 + 2 * (len packet - 1).
Proof.
  intros Hseq (Hdata & Hlen & Hrssi) Hone.
  assert (Hcap : MAX_FRAME_SIZE + 1 = 128) by reflexivity.
  pose proof (payload_length packet ltac:(lia)) as Hpay.
  pose proof (fmt_header_length seq (rssi packet) (len packet - 1)
                Hseq Hrssi ltac:(lia)) as Hhead.
  split_and!; [done | |].
  - unfold relay_line. by rewrite take_app_length'.
  - unfold relay_line. rewrite !length_app, Hhead, hex_of_length.
    cbn [length]. lia.
Qed.

Lemma relay_line_length_witness :
  length (fmt_header 12345 (rssi test_packet) (len test_packet - 1)) = 26%nat /\
  take 26 (relay_line 12345 test_packet)
    = fmt_header 12345 (rssi test_packet) (len test_packet - 1) /\
  Z.of_nat (length (relay_line 12345 test_packet)) = 28 + 2 * (len test_packet - 1).
Proof.
  apply (relay_line_length 12345 test_packet).
  - lia.
  - exact test_packet_wf.
  - simpl. lia.
Defined.

(** ** What commands and the capture path never do *)

Lemma reconfiguration_prefix_has_no_transmit (m : operation_mode_t) (k : nat) :
  count_calls is_transmit (take k (reconfiguration m)) = 0%nat.
Proof.
  destruct m; destruct k as [|[|[|[|[|[|k]]]]]]; reflexivity.
Qed.


(** X13.  A mode command that names the mode already in force only logs
    the command: no driver call is made and the mode stays as it is. *)
Theorem repeated_mode_command (esp_ok : list radio_call -> radio_call -> bool)
    (pending tx_frame0 : list byte) (rest : list ascii) (s : firmware)
    (m : operation_mode_t) :
  text_of (uart_read_bytes pending (BUF_SIZE - 1))
    = list_ascii_of_string CMD_PREFIX ++ rest ->
  classify (c_str rest) = SetMode m ->
  current_mode s = m ->
  uart_receive_task esp_ok pending tx_frame0 s
    = Done tt (logged (log_command (c_str rest)) s) /\
  issued s (logged (log_command (c_str rest)) s) = [] /\
  current_mode (logged (log_command (c_str rest)) s) = m.
Proof.
  intros Htext Hc Hm.
  rewrite (command_turn esp_ok pending tx_frame0 rest s Htext), Hc.
  rewrite switch_mode_same by done.
  split_and!; try done.
  apply issued_app. simpl. by rewrite app_nil_r.
Qed.

Lemma repeated_mode_command_witness :
  uart_receive_task rejects_panid sniff_command_chunk (replicate 128 x00) sniff_state
    = Done tt (logged (log_command (c_str KW_MODE_SNIFF)) sniff_state) /\
  issued sniff_state (logged (log_command (c_str KW_MODE_SNIFF)) sniff_state) = [] /\
  current_mode (logged (log_command (c_str KW_MODE_SNIFF)) sniff_state) = MODE_SNIFF.
Proof.
  apply (repeated_mode_command rejects_panid sniff_command_chunk (replicate 128 x00)
           KW_MODE_SNIFF sniff_state MODE_SNIFF); reflexivity.
Defined.

Lemma raw_frame_within_tx_frame_witness :
  uart_receive_task all_ok raw_chunk (replicate 128 x00) boot_state
    = Done tt (set_radio_log
                 (radio_log boot_state ++
                  [esp_ieee802154_transmit
                     (uart_read_bytes raw_chunk (BUF_SIZE - 1)
                        ++ drop (length (uart_read_bytes raw_chunk (BUF_SIZE - 1)))
                                (replicate 128 x00))
                     false])
                 boot_state).
Proof.
  apply (raw_frame_within_tx_frame all_ok raw_chunk (replicate 128 x00) boot_state).
  - intros [k Hk]. vm_compute in Hk. discriminate.
  - reflexivity.
  - vm_compute. split; [reflexivity | discriminate].
Defined.

Lemma step_is_quiet (e : event) (s s' : firmware) :
  step e s = Done tt s' ->
  esp_log s' = esp_log s /\
  exists calls, radio_log s' = radio_log s ++ calls /\
                Forall (fun c => capture_call c = true) calls.
Proof.
  destruct e; simpl;
    unfold esp_ieee802154_receive_done, uart_send_packet; run_monad; intros H;
    repeat (case_match; simplify_eq; simpl in *; try done);
    (split; [done|]);
    first [ by exists []; rewrite app_nil_r
          | eexists; split;
            [rewrite <- ?app_assoc; simpl; reflexivity | by repeat constructor] ].
Qed.

(** X12.  The capture path never reconfigures the radio, never transmits
    and never logs: over any run of callback invocations and relay steps
    the only driver calls made are [esp_ieee802154_receive_handle_done] and
    [esp_ieee802154_receive], and the log and the mode are unchanged. *)
Theorem capture_path_is_quiet (evs : list event) (s : firmware) :
  fw_inv s -> Forall wf_event evs ->
  exists s',
    run evs s = Done tt s' /\
    Forall (fun c => capture_call c = true) (issued s s') /\
    count_calls is_transmit (issued s s') = 0%nat /\
    esp_log s' = esp_log s /\
    current_mode s' = current_mode s.
Proof.
  intros Hinv Hevs.
  destruct (run_inv evs s Hinv Hevs) as (s' & Hrun & _).
  exists s'. split; [done|].
  assert (Hq : esp_log s' = esp_log s /\
               exists calls, radio_log s' = radio_log s ++ calls /\
                             Forall (fun c => capture_call c = true) calls).
  { clear Hinv Hevs. revert s Hrun.
    induction evs as [|e evs IH]; intros s Hrun; simpl in Hrun.
    - unfold ret in Hrun. simplify_eq. split; [done|].
      exists []. by rewrite app_nil_r.
    - unfold bind in Hrun.
      destruct (step e s) as [[] s1| |] eqn:Hs; try done.
      destruct (step_is_quiet e s s1 Hs) as (Hl1 & c1 & Hr1 & Hf1).
      destruct (IH s1 Hrun) as (Hl2 & c2 & Hr2 & Hf2).
      split; [congruence|].
      exists (c1 ++ c2). split; [by rewrite Hr2, Hr1, app_assoc|].
      by apply Forall_app. }
  destruct Hq as (Hlog & calls & Hcalls & Hf).
  rewrite (issued_app s s' calls Hcalls).
  split_and!; try done.
  - clear Hcalls. induction Hf as [|c calls Hc _ IH]; [done|].
    unfold count_calls in *. rewrite filter_cons.
    destruct (decide (is_transmit c = true)) as [Ht|_]; [|done].
    by destruct c.
  - by eapply run_keeps_mode.
Qed.

Lemma capture_path_is_quiet_witness :
  exists s',
    run [ev_frame short_frame (-40) (Some zero_block); ev_relay_receive;
         ev_relay_send 7] sniff_state = Done tt s' /\
    Forall (fun c => capture_call c = true) (issued sniff_state s') /\
    count_calls is_transmit (issued sniff_state s') = 0%nat /\
    esp_log s' = esp_log sniff_state /\
    current_mode s' = current_mode sniff_state.
Proof.
  apply (capture_path_is_quiet
           [ev_frame short_frame (-40) (Some zero_block); ev_relay_receive;
            ev_relay_send 7] sniff_state).
  - exact sniff_state_inv.
  - repeat constructor; try exact short_frame_fits; reflexivity.
Defined.

(** ** A burst of frames *)

(** X14.  When frames arrive in capture mode with no relay step in between,
    the queue fills up to its 40 slots and every further frame is dropped:
    after a burst of [n] frames the queue holds the records it held before,
    in the same order at its front, its length is min (before + n, 40),
    and the drop counter has grown (modulo 2^32) by the number of frames
    that did not fit. *)
Theorem burst_fills_then_drops (evs : list event) (s : firmware) :
  fw_inv s ->
  current_mode s = MODE_SNIFF ->
  Forall wf_capture evs ->
  exists s',
    run evs s = Done tt s' /\
    rx_queue s `prefix_of` rx_queue s' /\
    Z.of_nat (length (rx_queue s'))
      = Z.min (Z.of_nat (length (rx_queue s)) + Z.of_nat (length evs)) QUEUE_SIZE /\
    to_uint32 (dropped_packets s')
      = to_uint32 (dropped_packets s +
                   Z.max 0 (Z.of_nat (length (rx_queue s)) + Z.of_nat (length evs)
                            - QUEUE_SIZE)).
Proof.
  intros Hinv Hm Hevs. revert s Hinv Hm.
  induction Hevs as [|e evs He _ IH]; intros s Hinv Hm.
  - exists s. pose proof Hinv as (Hocc & _). simpl.
    split_and!; [done | done | lia | f_equal; lia].
  - destruct e as [frame frame_rssi [stale|]| |]; try done.
    destruct He as [Hfits Hstale].
    destruct (receive_done_inv frame frame_rssi (Some stale) s Hinv Hfits Hstale)
      as (s1 & Hs & Hinv1).
    pose proof (receive_done_keeps_mode _ _ _ _ _ Hs) as Hm1. rewrite Hm in Hm1.
    destruct (IH s1 Hinv1 Hm1) as (s' & Hrun & Hpre & Hlen & Hdrop).
    exists s'. split; [cbn [run step]; unfold bind; by rewrite Hs|].
    destruct Hfits as (frame0 & H0 & Hphy & Hbuf).
    pose proof Hinv as (Hocc & _).
    destruct (decide (Z.of_nat (length (rx_queue s)) < QUEUE_SIZE)) as [Hroom|Hfull].
    + rewrite (receive_done_enqueued _ frame0) in Hs by done. simplify_eq.
      cbn [rx_queue dropped_packets rearmed set_radio_log set_rx_queue set_heap]
        in Hpre, Hlen, Hdrop.
      rewrite length_app in Hlen, Hdrop. cbn [length] in *.
      split_and!.
      * etrans; [|exact Hpre]. by apply prefix_app_r.
      * lia.
      * rewrite Hdrop. f_equal. lia.
    + rewrite (receive_done_queue_full _ frame0) in Hs by (try done; lia).
      simplify_eq.
      cbn [rx_queue dropped_packets rearmed dropped_one set_radio_log
           set_dropped_packets] in Hpre, Hlen, Hdrop.
      cbn [length]. split_and!; [done | lia |].
      rewrite Hdrop, to_uint32_add_l. f_equal. lia.
Qed.

Lemma burst_fills_then_drops_witness :
  exists s',
    run [ev_frame short_frame (-40) (Some zero_block);
         ev_frame short_frame (-41) (Some zero_block)] sniff_state = Done tt s' /\
    rx_queue sniff_state `prefix_of` rx_queue s' /\
    Z.of_nat (length (rx_queue s'))
      = Z.min (Z.of_nat (length (rx_queue sniff_state)) + Z.of_nat 2) QUEUE_SIZE /\
    to_uint32 (dropped_packets s')
      = to_uint32 (dropped_packets sniff_state +
                   Z.max 0 (Z.of_nat (length (rx_queue sniff_state)) + Z.of_nat 2
                            - QUEUE_SIZE)).
Proof.
  apply (burst_fills_then_drops
           [ev_frame short_frame (-40) (Some zero_block);
            ev_frame short_frame (-41) (Some zero_block)] sniff_state).
  - exact sniff_state_inv.
  - reflexivity.
  - repeat constructor; try exact short_frame_fits.
Defined.

Lemma raw_frame_past_tx_frame_witness :
  uart_receive_task all_ok oversized_chunk (replicate 128 x00) boot_state = Fault.
Proof.
  apply (raw_frame_past_tx_frame all_ok oversized_chunk (replicate 128 x00) boot_state).
  - intros [k Hk]. vm_compute in Hk. discriminate.
  - reflexivity.
  - vm_compute. reflexivity.
Defined.

(** ** The columns of the line that is written *)

Lemma relay_line_decodes (seq : Z) (packet : rx_packet_t) :
  0 <= seq < 1000000 ->
  wf_packet packet ->
  1 <= len packet ->
  decode_line (relay_line seq packet) = Some (seq, rssi packet, payload packet).
Proof.
  intros Hseq (Hdata & Hlen & Hrssi) Hone.
  assert (Hcap : MAX_FRAME_SIZE + 1 = 128) by reflexivity.
  pose proof (payload_length packet ltac:(lia)) as Hpay.
  assert (H6 : parse_field (fmt_6lu seq) = Some seq)
    by (apply parse_field_unsigned; lia).
  assert (H4 : parse_signed (fmt_4d (rssi packet)) = Some (rssi packet))
    by apply parse_signed_itoa.
  assert (H3 : parse_field (fmt_3d (len packet - 1)) = Some (len packet - 1))
    by (apply count_field_reads_back; lia).
  unfold relay_line, fmt_header, decode_line.
  rewrite <- !app_assoc.
  rewrite expect_app. cbn [mbind option_bind].
  rewrite take_app_length', drop_app_length'
    by (symmetry; apply fmt_6lu_length; lia).
  rewrite H6. cbn [mbind option_bind].
  rewrite expect_app. cbn [mbind option_bind].
  rewrite take_app_length', drop_app_length'
    by (symmetry; apply fmt_4d_length; lia).
  rewrite H4. cbn [mbind option_bind].
  rewrite expect_app. cbn [mbind option_bind].
  rewrite take_app_length', drop_app_length'
    by (symmetry; apply fmt_3d_length; lia).
  rewrite H3. cbn [mbind option_bind].
  rewrite expect_app. cbn [mbind option_bind].
  replace (length (hex_of (payload packet) ++ [CR; LF]) - 2)%nat
    with (length (hex_of (payload packet)))
    by (rewrite length_app; simpl; lia).
  rewrite take_app_length, drop_app_length, parse_hex_hex_of.
  cbn [mbind option_bind].
  rewrite bool_decide_eq_true_2; [done|]. split; [done | lia].
Qed.

(** Where the fields of a line stand: the signal strength in columns 13
    to 16, the count in columns 20 to 22, the hexadecimal section from
    column 26 up to the terminator. *)
Lemma relay_line_columns (seq : Z) (packet : rx_packet_t) :
  0 <= seq < 1000000 ->
  wf_packet packet ->
  take 4 (drop 13 (relay_line seq packet)) = fmt_4d (rssi packet) /\
  take 3 (drop 20 (relay_line seq packet)) = fmt_3d (len packet - 1) /\
  drop 26 (relay_line seq packet) = hex_of (payload packet) ++ [CR; LF].
Proof.
  intros Hseq (Hdata & Hlen & Hrssi).
  assert (Hcap : MAX_FRAME_SIZE + 1 = 128) by reflexivity.
  pose proof (fmt_6lu_length seq Hseq) as H6.
  pose proof (fmt_4d_length (rssi packet) Hrssi) as H4.
  pose proof (fmt_3d_length (len packet - 1) ltac:(lia)) as H3.
  unfold relay_line, fmt_header.
  set (f6 := fmt_6lu seq) in *. set (f4 := fmt_4d (rssi packet)) in *.
  set (f3 := fmt_3d (len packet - 1)) in *.
  set (rest := hex_of (payload packet) ++ [CR; LF]).
  split_and!.
  - replace ((list_ascii_of_string "[" ++ f6 ++ list_ascii_of_string "|RSSI:" ++ f4 ++
              list_ascii_of_string "dB|" ++ f3 ++ list_ascii_of_string "B] ") ++ rest)
      with ((list_ascii_of_string "[" ++ f6 ++ list_ascii_of_string "|RSSI:") ++
            f4 ++ list_ascii_of_string "dB|" ++ f3 ++ list_ascii_of_string "B] " ++ rest)
      by (by rewrite <- !app_assoc).
    rewrite drop_app_length' by (rewrite !length_app, H6; reflexivity).
    by rewrite take_app_length'.
  - replace ((list_ascii_of_string "[" ++ f6 ++ list_ascii_of_string "|RSSI:" ++ f4 ++
              list_ascii_of_string "dB|" ++ f3 ++ list_ascii_of_string "B] ") ++ rest)
      with ((list_ascii_of_string "[" ++ f6 ++ list_ascii_of_string "|RSSI:" ++ f4 ++
             list_ascii_of_string "dB|") ++
            f3 ++ list_ascii_of_string "B] " ++ rest)
      by (by rewrite <- !app_assoc).
    rewrite drop_app_length' by (rewrite !length_app, H6, H4; reflexivity).
    by rewrite take_app_length'.
  - rewrite drop_app_length'; [done|].
    rewrite !length_app, H6, H4, H3. reflexivity.
Qed.

(** C9.  A record of the maximum size ([len = 128], 127 payload bytes) is
    rendered whole: in the line handed to [uart_write_bytes] the count
    field (columns 20 to 22) is the three characters "127", the 254
    characters from column 26 are the hexadecimal section and read back as
    the 127 payload bytes, CR LF follow at column 280, and the 282
    characters of the line with their terminator fit in [output_buffer]. *)
Theorem relay_line_maximum_size (buf : list ascii) (tick : Z) (packet : rx_packet_t) :
  Z.of_nat (length buf) = OUTPUT_BUFFER_SIZE ->
  wf_packet packet ->
  len packet = MAX_FRAME_SIZE + 1 ->
  exists buf' line,
    render buf tick packet = Some (buf', line) /\
    line = fmt_header (to_uint32 tick mod 1000000) (rssi packet) 127
             ++ hex_of (payload packet) ++ [CR; LF] /\
    take 3 (drop 20 line) = list_ascii_of_string "127" /\
    take 254 (drop 26 line) = hex_of (payload packet) /\
    parse_hex (take 254 (drop 26 line)) = Some (payload packet) /\
    drop 280 line = [CR; LF] /\
    decode_line line
      = Some (to_uint32 tick mod 1000000, rssi packet, payload packet) /\
    length (payload packet) = 127%nat /\
    length line = 282%nat /\
    282 < OUTPUT_BUFFER_SIZE.
Proof.
  intros Hbuf Hwf Hlen.
  destruct (render_wf buf tick packet Hbuf Hwf) as (buf' & Hr & _).
  set (seq := to_uint32 tick mod 1000000) in *.
  assert (Hseq : 0 <= seq < 1000000) by (apply Z.mod_pos_bound; lia).
  assert (Hcap : MAX_FRAME_SIZE + 1 = 128) by reflexivity.
  pose proof (relay_line_decodes seq packet Hseq Hwf ltac:(lia)) as Hdec.
  destruct (relay_line_columns seq packet Hseq Hwf) as (_ & Hcount & Hhex).
  pose proof Hwf as (Hdata & _ & Hrssi).
  assert (Hpay : length (payload packet) = 127%nat).
  { apply Nat2Z.inj. rewrite payload_length; lia. }
  assert (Hhexlen : length (hex_of (payload packet)) = 254%nat)
    by (by rewrite hex_of_length, Hpay).
  exists buf', (relay_line seq packet).
  split_and!; try done.
  - unfold relay_line. by rewrite Hlen.
  - rewrite Hcount, Hlen. reflexivity.
  - rewrite Hhex. by rewrite take_app_length'.
  - rewrite Hhex, take_app_length' by done. apply parse_hex_hex_of.
  - change 280%nat with (26 + 254)%nat. rewrite <- drop_drop, Hhex.
    by rewrite drop_app_length'.
  - unfold relay_line.
    rewrite !length_app, Hhexlen, fmt_header_length; [done|done|done|lia].
Qed.

Lemma relay_line_maximum_size_witness :
  exists buf' line,
    render (output_buffer boot_state) 77 full_packet = Some (buf', line) /\
    line = fmt_header (to_uint32 77 mod 1000000) (rssi full_packet) 127
             ++ hex_of (payload full_packet) ++ [CR; LF] /\
    take 3 (drop 20 line) = list_ascii_of_string "127" /\
    take 254 (drop 26 line) = hex_of (payload full_packet) /\
    parse_hex (take 254 (drop 26 line)) = Some (payload full_packet) /\
    drop 280 line = [CR; LF] /\
    decode_line line
      = Some (to_uint32 77 mod 1000000, rssi full_packet, payload full_packet) /\
    length (payload full_packet) = 127%nat /\
    length line = 282%nat /\
    282 < OUTPUT_BUFFER_SIZE.
Proof.
  apply (relay_line_maximum_size (output_buffer boot_state) 77 full_packet).
  - reflexivity.
  - exact full_packet_wf.
  - reflexivity.
Defined.

(** C10.  For a record with [1 <= len] (and within the bounds of its type)
    the number printed in the count field of the line that is written
    (columns 20 to 22, right-justified) is [len - 1], and the hexadecimal
    section, from column 26 up to the terminator, consists of exactly
    [len - 1] groups of two characters that read back as
    [data[1] .. data[len - 1]]: the count field and the number of encoded
    bytes agree. *)
Theorem count_field_matches_hex_section
    (buf : list ascii) (tick : Z) (packet : rx_packet_t) :
  Z.of_nat (length buf) = OUTPUT_BUFFER_SIZE ->
  wf_packet packet ->
  1 <= len packet ->
  exists buf' line,
    render buf tick packet = Some (buf', line) /\
    line = fmt_header (to_uint32 tick mod 1000000) (rssi packet) (len packet - 1)
             ++ concat (map (fun b => fmt_02X (byte_val b)) (payload packet))
             ++ [CR; LF] /\
    parse_field (take 3 (drop 20 line)) = Some (len packet - 1) /\
    Z.of_nat (length line) = 28 + 2 * (len packet - 1) /\
    drop 26 line
      = concat (map (fun b => fmt_02X (byte_val b)) (payload packet)) ++ [CR; LF] /\
    parse_hex (take (length line - 28) (drop 26 line)) = Some (payload packet) /\
    Z.of_nat (length (payload packet)) = len packet - 1 /\
    Forall (fun group => length group = 2%nat)
           (map (fun b => fmt_02X (byte_val b)) (payload packet)) /\
    decode_line line
      = Some (to_uint32 tick mod 1000000, rssi packet, payload packet).
Proof.
  intros Hbuf Hwf Hlen.
  destruct (render_wf buf tick packet Hbuf Hwf) as (buf' & Hr & _).
  set (seq := to_uint32 tick mod 1000000) in *.
  assert (Hseq : 0 <= seq < 1000000) by (apply Z.mod_pos_bound; lia).
  assert (Hcap : MAX_FRAME_SIZE + 1 = 128) by reflexivity.
  pose proof (relay_line_decodes seq packet Hseq Hwf Hlen) as Hdec.
  destruct (relay_line_columns seq packet Hseq Hwf) as (_ & Hcount & Hhex).
  pose proof Hwf as (Hdata & Hcapacity & Hrssi).
  pose proof (payload_length packet ltac:(lia)) as Hpay.
  assert (Hlinelen : Z.of_nat (length (relay_line seq packet))
                     = 28 + 2 * (len packet - 1)).
  { unfold relay_line.
    rewrite !length_app, hex_of_length, fmt_header_length by (done || lia).
    cbn [length]. lia. }
  exists buf', (relay_line seq packet).
  split_and!; try done.
  - rewrite Hcount. apply count_field_reads_back. lia.
  - replace (length (relay_line seq packet) - 28)%nat
      with (length (hex_of (payload packet)))
      by (rewrite hex_of_length; lia).
    rewrite Hhex, take_app_length. apply parse_hex_hex_of.
  - lia.
  - apply Forall_map, Forall_forall. intros b _. apply fmt_02X_length.
Qed.

Lemma count_field_matches_hex_section_witness :
  exists buf' line,
    render (output_buffer boot_state) 12345 test_packet = Some (buf', line) /\
    line = fmt_header (to_uint32 12345 mod 1000000) (rssi test_packet)
                      (len test_packet - 1)
             ++ concat (map (fun b => fmt_02X (byte_val b)) (payload test_packet))
             ++ [CR; LF] /\
    parse_field (take 3 (drop 20 line)) = Some (len test_packet - 1) /\
    Z.of_nat (length line) = 28 + 2 * (len test_packet - 1) /\
    drop 26 line
      = concat (map (fun b => fmt_02X (byte_val b)) (payload test_packet))
          ++ [CR; LF] /\
    parse_hex (take (length line - 28) (drop 26 line)) = Some (payload test_packet) /\
    Z.of_nat (length (payload test_packet)) = len test_packet - 1 /\
    Forall (fun group => length group = 2%nat)
           (map (fun b => fmt_02X (byte_val b)) (payload test_packet)) /\
    decode_line line
      = Some (to_uint32 12345 mod 1000000, rssi test_packet, payload test_packet).
Proof.
  apply (count_field_matches_hex_section (output_buffer boot_state) 12345 test_packet).
  - reflexivity.
  - exact test_packet_wf.
  - simpl. lia.
Defined.

(** X5.  A frame within the PHY limit that arrives in capture mode with
    the queue empty, followed by one turn of the relay task, puts exactly
    one line on the serial port.  In that line the count field (columns 20
    to 22) reads as the frame's length byte, the signal-strength field
    (columns 13 to 16) reads as the strength reported with the frame (as an
    [int8_t]), and the hexadecimal section reads back as the bytes that
    follow the length byte; read as a whole, the line gives the sequence
    value, that strength and those bytes.  The record is freed again, the
    queue is empty, nothing is counted as dropped, and the radio was
    released and re-armed once. *)
Theorem capture_then_relay
    (frame : list byte) (frame0 : byte) (frame_rssi tick : Z)
    (stale : rx_packet_t) (s : firmware) :
  fw_inv s ->
  current_mode s = MODE_SNIFF ->
  rx_queue s = [] ->
  relay_packet s = None ->
  frame !! 0%nat = Some frame0 ->
  byte_val frame0 <= MAX_FRAME_SIZE ->
  byte_val frame0 + 1 <= Z.of_nat (length frame) ->
  length (data stale) = Z.to_nat (MAX_FRAME_SIZE + 1) ->
  exists s' line,
    run [ev_frame frame frame_rssi (Some stale); ev_relay_receive; ev_relay_send tick] s
      = Done tt s' /\
    uart_tx s' = uart_tx s ++ [line] /\
    decode_line line
      = Some (to_uint32 tick mod 1000000, to_int8 frame_rssi,
              take (Z.to_nat (byte_val frame0)) (drop 1 frame)) /\
    parse_signed (take 4 (drop 13 line)) = Some (to_int8 frame_rssi) /\
    parse_field (take 3 (drop 20 line)) = Some (byte_val frame0) /\
    parse_hex (take (length line - 28) (drop 26 line))
      = Some (take (Z.to_nat (byte_val frame0)) (drop 1 frame)) /\
    Z.of_nat (length line) = 28 + 2 * byte_val frame0 /\
    heap s' = heap s /\
    rx_queue s' = [] /\
    relay_packet s' = None /\
    dropped_packets s' = dropped_packets s /\
    issued s s' = [esp_ieee802154_receive_handle_done frame; esp_ieee802154_receive].
Proof.
  intros (Hocc & Hnd & Hdom & Hwf & Hbuf) Hm Hq Hheld H0 Hphy Hlen Hstale.
  pose proof (captured_wf frame frame0 frame_rssi stale Hphy Hlen Hstale) as Hcwf.
  pose proof (byte_val_range frame0) as Hrange.
  assert (Hmax : MAX_FRAME_SIZE = 127) by reflexivity.
  set (p := fresh (dom (heap s))).
  set (packet := captured frame frame0 frame_rssi stale) in *.
  set (seq := to_uint32 tick mod 1000000).
  assert (Hseq : 0 <= seq < 1000000) by (apply Z.mod_pos_bound; lia).
  assert (Hplen : len packet = byte_val frame0 + 1)
    by (subst packet; cbn [len captured]; by apply packet_len_of_small).
  assert (Hprssi : rssi packet = to_int8 frame_rssi) by reflexivity.
  assert (Hppay : payload packet = take (Z.to_nat (byte_val frame0)) (drop 1 frame))
    by (by apply captured_payload).
  pose proof (relay_line_decodes seq packet Hseq Hcwf ltac:(lia)) as Hdec.
  destruct (relay_line_columns seq packet Hseq Hcwf) as (Hc4 & Hc3 & Hhex).
  assert (Hlinelen : Z.of_nat (length (relay_line seq packet))
                     = 28 + 2 * byte_val frame0).
  { destruct Hcwf as (Hd & Hl & Hr).
    pose proof (payload_length packet ltac:(unfold MAX_FRAME_SIZE in *; lia)) as Hpl.
    unfold relay_line.
    rewrite !length_app, hex_of_length, fmt_header_length by (done || lia).
    cbn [length]. lia. }
  cbn [run step]. unfold bind at 1.
  rewrite (receive_done_enqueued frame frame0) by (rewrite ?Hq; done).
  fold p. fold packet. rewrite Hq. cbn [app].
  unfold bind at 1. unfold xQueueReceive.
  cbn [relay_packet rx_queue rearmed set_radio_log set_rx_queue set_heap].
  rewrite Hheld. unfold bind at 1.
  match goal with |- context [uart_send_packet tick ?st] =>
    destruct (uart_send_packet_held tick st p packet) as (buf' & _ & Hsend);
      [reflexivity | apply lookup_insert_eq | done | done |] end.
  rewrite Hsend. unfold ret. fold seq.
  eexists _, (relay_line seq packet). split; [reflexivity|].
  cbn [uart_tx heap rx_queue relay_packet dropped_packets radio_log
       set_relay_packet set_heap set_uart_tx set_output_buffer].
  split_and!; try done.
  - by rewrite Hdec, Hprssi, Hppay.
  - rewrite Hc4, Hprssi. apply parse_signed_itoa.
  - rewrite Hc3, Hplen.
    replace (byte_val frame0 + 1 - 1) with (byte_val frame0) by lia.
    apply count_field_reads_back. lia.
  - replace (length (relay_line seq packet) - 28)%nat
      with (length (hex_of (payload packet))).
    + rewrite Hhex, take_app_length, <- Hppay. apply parse_hex_hex_of.
    + rewrite hex_of_length, Hppay, length_take, length_drop. lia.
  - simpl. rewrite delete_insert_eq. apply delete_id, fresh_not_live.
  - by apply issued_app.
Qed.

Lemma capture_then_relay_witness :
  exists s' line,
    run [ev_frame short_frame (-40) (Some zero_block); ev_relay_receive;
         ev_relay_send 12345] sniff_state
      = Done tt s' /\
    uart_tx s' = uart_tx sniff_state ++ [line] /\
    decode_line line
      = Some (to_uint32 12345 mod 1000000, to_int8 (-40),
              take (Z.to_nat (byte_val x03)) (drop 1 short_frame)) /\
    parse_signed (take 4 (drop 13 line)) = Some (to_int8 (-40)) /\
    parse_field (take 3 (drop 20 line)) = Some (byte_val x03) /\
    parse_hex (take (length line - 28) (drop 26 line))
      = Some (take (Z.to_nat (byte_val x03)) (drop 1 short_frame)) /\
    Z.of_nat (length line) = 28 + 2 * byte_val x03 /\
    heap s' = heap sniff_state /\
    rx_queue s' = [] /\
    relay_packet s' = None /\
    dropped_packets s' = dropped_packets sniff_state /\
    issued sniff_state s'
      = [esp_ieee802154_receive_handle_done short_frame; esp_ieee802154_receive].
Proof.
  apply (capture_then_relay short_frame x03 (-40) 12345 zero_block sniff_state).
  - exact sniff_state_inv.
  - reflexivity.
  - reflexivity.
  - reflexivity.
  - reflexivity.
  - vm_compute. discriminate.
  - vm_compute. discriminate.
  - reflexivity.
Defined.

(** ** The mode from start-up to the first mode command *)

Lemma serial_turn_keeps_mode (esp_ok : list radio_call -> radio_call -> bool)
    (pending tx_frame0 : list byte) (s s' : firmware) :
  is_mode_command (sys_serial pending tx_frame0) = false ->
  uart_receive_task esp_ok pending tx_frame0 s = Done tt s' ->
  current_mode s' = current_mode s.
Proof.
  unfold is_mode_command.
  set (text := text_of (uart_read_bytes pending (BUF_SIZE - 1))).
  intros Hnot Hturn.
  destruct (starts_with (list_ascii_of_string CMD_PREFIX) text) eqn:Hpre.
  - apply starts_with_spec in Hpre as [rest Hrest].
    rewrite (command_turn esp_ok pending tx_frame0 rest s Hrest) in Hturn.
    fold text in Hrest. rewrite Hrest in Hnot.
    change (Z.to_nat CMD_PREFIX_LEN) with (length (list_ascii_of_string CMD_PREFIX))
      in Hnot.
    rewrite drop_app_length, andb_true_l in Hnot.
    destruct (classify (c_str rest)); [done| |]; by simplify_eq.
  - assert (Hnp : ~ list_ascii_of_string CMD_PREFIX `prefix_of` text).
    { intros [k Hk].
      assert (starts_with (list_ascii_of_string CMD_PREFIX) text = true)
        by (apply starts_with_spec; by exists k).
      congruence. }
    revert Hturn. unfold uart_receive_task. fold text.
    destruct (0 <? _); [|unfold ret; intros; by simplify_eq].
    destruct (strncmp_eq _ _ _) eqn:Hcmd; [by apply is_command_spec in Hcmd|].
    run_monad. intros H.
    repeat (case_match; simplify_eq; simpl in *; try done).
Qed.

Lemma sys_run_keeps_mode (esp_ok : list radio_call -> radio_call -> bool)
    (evs : list sys_event) (s s' : firmware) :
  Forall (fun e => is_mode_command e = false) evs ->
  sys_run esp_ok evs s = Done tt s' ->
  current_mode s' = current_mode s.
Proof.
  intros Hevs. revert s.
  induction Hevs as [|e evs He _ IH]; intros s H; simpl in H.
  - unfold ret in H. by simplify_eq.
  - unfold bind in H.
    destruct (sys_step esp_ok e s) as [[] s1| |] eqn:Hs; try done.
    rewrite (IH _ H). destruct e as [e|pending tx_frame0]; simpl in Hs.
    + destruct e; simpl in Hs.
      * by eapply receive_done_keeps_mode.
      * by eapply xQueueReceive_keeps_mode.
      * by eapply uart_send_packet_keeps_mode.
    + by eapply serial_turn_keeps_mode.
Qed.

(** C4, as the code has it.  The mode variable starts as [MODE_TX] and no
    task exists.  [app_main] (the driver accepting its calls) switches the
    mode to [MODE_SNIFF] with the full capture reconfiguration and then
    creates the two tasks; whenever it aborts instead, no task has been
    created.  From there on, over any run of the receive callback, the
    relay task and the command task in which no mode command is read, the
    mode stays [MODE_SNIFF]: the callback does not take its mode gate, the
    status line reports "SNIFF", and a chunk that is not a command fails
    the transmit test and is dropped. *)
Theorem mode_after_startup (esp_ok : list radio_call -> radio_call -> bool) :
  accepts esp_ok [] startup_calls = true ->
  exists s,
    app_main esp_ok boot_state = Done tt s /\
    current_mode boot_state = MODE_TX /\
    tasks boot_state = [] /\
    current_mode s = MODE_SNIFF /\
    radio_log s = startup_calls /\
    tasks s = startup_tasks /\
    (forall (esp_ok' : list radio_call -> radio_call -> bool) (s1 : firmware),
       app_main esp_ok' boot_state = Aborted s1 -> tasks s1 = []) /\
    forall (evs : list sys_event) (s' : firmware),
      Forall (fun e => is_mode_command e = false) evs ->
      sys_run esp_ok evs s = Done tt s' ->
      current_mode s' = MODE_SNIFF /\
      (forall frame frame_rssi,
         exists s'', esp_ieee802154_receive_done frame frame_rssi None s' = Done tt s'' /\
                     dropped_packets s'' = to_uint32 (dropped_packets s' + 1)) /\
      (forall pending tx_frame0 rest,
         text_of (uart_read_bytes pending (BUF_SIZE - 1))
           = list_ascii_of_string CMD_PREFIX ++ rest ->
         classify (c_str rest) = ReportStatus ->
         uart_receive_task esp_ok pending tx_frame0 s'
           = Done tt (logged (log_status "SNIFF" (Z.of_nat (length (rx_queue s')))
                                         QUEUE_SIZE (dropped_packets s'))
                        (logged (log_command (c_str rest)) s'))) /\
      (forall pending tx_frame0,
         ~ list_ascii_of_string CMD_PREFIX
             `prefix_of` text_of (uart_read_bytes pending (BUF_SIZE - 1)) ->
         uart_receive_task esp_ok pending tx_frame0 s' = Done tt s').
Proof.
  intros Hok.
  pose proof (app_main_outcome esp_ok) as Hmain.
  rewrite (proj2 (rejected_at_none esp_ok startup_calls []) Hok) in Hmain.
  eexists. split; [exact Hmain|].
  split_and!; try done.
  - intros esp_ok' s1 Hab. rewrite app_main_outcome in Hab.
    destruct (rejected_at esp_ok' [] startup_calls) as [k|]; [|done].
    simplify_eq. by destruct (k <? 2)%nat.
  - intros evs s' Hevs Hrun.
    pose proof (sys_run_keeps_mode esp_ok evs _ s' Hevs Hrun) as Hm.
    cbn [current_mode logged set_esp_log set_tasks mode_switched] in Hm.
    split_and!; try done.
    + intros frame frame_rssi. eexists.
      split; [by apply receive_done_no_memory | done].
    + intros pending tx_frame0 rest Htext Hst.
      rewrite (command_turn esp_ok pending tx_frame0 rest s' Htext), Hst.
      unfold status_of, mode_name. cbn [current_mode logged set_esp_log].
      rewrite Hm. reflexivity.
    + intros pending tx_frame0 Hnp. by apply non_command_in_capture.
Qed.

Lemma mode_after_startup_witness :
  exists s,
    app_main all_ok boot_state = Done tt s /\
    current_mode boot_state = MODE_TX /\
    tasks boot_state = [] /\
    current_mode s = MODE_SNIFF /\
    radio_log s = startup_calls /\
    tasks s = startup_tasks /\
    (forall (esp_ok' : list radio_call -> radio_call -> bool) (s1 : firmware),
       app_main esp_ok' boot_state = Aborted s1 -> tasks s1 = []) /\
    forall (evs : list sys_event) (s' : firmware),
      Forall (fun e => is_mode_command e = false) evs ->
      sys_run all_ok evs s = Done tt s' ->
      current_mode s' = MODE_SNIFF /\
      (forall frame frame_rssi,
         exists s'', esp_ieee802154_receive_done frame frame_rssi None s' = Done tt s'' /\
                     dropped_packets s'' = to_uint32 (dropped_packets s' + 1)) /\
      (forall pending tx_frame0 rest,
         text_of (uart_read_bytes pending (BUF_SIZE - 1))
           = list_ascii_of_string CMD_PREFIX ++ rest ->
         classify (c_str rest) = ReportStatus ->
         uart_receive_task all_ok pending tx_frame0 s'
           = Done tt (logged (log_status "SNIFF" (Z.of_nat (length (rx_queue s')))
                                         QUEUE_SIZE (dropped_packets s'))
                        (logged (log_command (c_str rest)) s'))) /\
      (forall pending tx_frame0,
         ~ list_ascii_of_string CMD_PREFIX
             `prefix_of` text_of (uart_read_bytes pending (BUF_SIZE - 1)) ->
         uart_receive_task all_ok pending tx_frame0 s' = Done tt s').
Proof.
  apply (mode_after_startup all_ok). reflexivity.
Defined.

(** ** What a command turn does besides switching *)

(** X10.  A chunk that begins with "#CMD#" is never sent over the air and
    never copied into [tx_frame], in either mode and whatever its length:
    the turn ends normally or in the abort of a failed mode switch, makes
    no transmit call and no [uart_write_bytes] call, and leaves the queue,
    the heap and the drop counter alone.  Its only output is the log: the
    "command received" line, followed by at most one more line (the mode
    line of a completed switch, or the status line). *)
Theorem command_never_transmits (esp_ok : list radio_call -> radio_call -> bool)
    (pending tx_frame0 : list byte) (rest : list ascii) (s : firmware) :
  text_of (uart_read_bytes pending (BUF_SIZE - 1))
    = list_ascii_of_string CMD_PREFIX ++ rest ->
  exists s' more,
    (uart_receive_task esp_ok pending tx_frame0 s = Done tt s' \/
     uart_receive_task esp_ok pending tx_frame0 s = Aborted s') /\
    count_calls is_transmit (issued s s') = 0%nat /\
    uart_tx s' = uart_tx s /\
    esp_log s' = esp_log s ++ log_command (c_str rest) :: more /\
    (length more <= 1)%nat /\
    rx_queue s' = rx_queue s /\
    heap s' = heap s /\
    dropped_packets s' = dropped_packets s.
Proof.
  intros Htext. rewrite (command_turn esp_ok pending tx_frame0 rest s Htext).
  set (s0 := logged (log_command (c_str rest)) s).
  assert (Hsame : issued s s0 = []).
  { apply issued_app. simpl. by rewrite app_nil_r. }
  destruct (classify (c_str rest)) as [m| |].
  - destruct (decide (current_mode s0 = m)) as [Hm|Hm].
    + exists s0, []. rewrite switch_mode_same by done.
      split; [by left|]. split; [by rewrite Hsame|].
      split_and!; first [done | simpl; lia].
    + rewrite switch_mode_outcome by done.
      destruct (rejected_at esp_ok (radio_log s0) (reconfiguration m)) as [k|].
      * eexists _, []. split; [by right|]. split.
        { rewrite (issued_app _ _ (take (S k) (reconfiguration m))) by done.
          apply reconfiguration_prefix_has_no_transmit. }
        split_and!; first [done | simpl; lia].
      * exists (mode_switched m s0), [mode_log m]. split; [by left|]. split.
        { rewrite (issued_app _ _ (reconfiguration m)) by done. by destruct m. }
        split_and!; first [done | simpl; lia | simpl; by rewrite <- app_assoc].
  - eexists _, [status_of s]. split; [by left|]. split.
    { by rewrite (issued_app _ _ []) by (simpl; by rewrite app_nil_r). }
    split_and!; first [done | simpl; lia | simpl; by rewrite <- app_assoc].
  - exists s0, []. split; [by left|]. split; [by rewrite Hsame|].
    split_and!; first [done | simpl; lia].
Qed.

Lemma command_never_transmits_witness :
  exists s' more,
    (uart_receive_task all_ok sniff_command_chunk (replicate 128 x00) boot_state
       = Done tt s' \/
     uart_receive_task all_ok sniff_command_chunk (replicate 128 x00) boot_state
       = Aborted s') /\
    count_calls is_transmit (issued boot_state s') = 0%nat /\
    uart_tx s' = uart_tx boot_state /\
    esp_log s' = esp_log boot_state ++ log_command (c_str KW_MODE_SNIFF) :: more /\
    (length more <= 1)%nat /\
    rx_queue s' = rx_queue boot_state /\
    heap s' = heap boot_state /\
    dropped_packets s' = dropped_packets boot_state.
Proof.
  apply (command_never_transmits all_ok sniff_command_chunk (replicate 128 x00)
           KW_MODE_SNIFF boot_state).
  reflexivity.
Defined.
